(** * congo: a count-down latch for Go, and its specification

    The development embeds the two latch implementations of the repository
    (package [congo], file countdownlatch.go, and the earlier package
    [latch]) as executable Rocq functions over an explicit latch state, and
    proves the properties the specification states about them.

    A method call is one atomic step: every mutating method runs between
    [m.Lock()] and the deferred [m.Unlock()], and [Wait]/[WaitTimeout] only
    receive from the completion channel.  A step either returns (with a
    value, the new latch and the channel events it emitted), cannot proceed
    in the current state, or panics. *)

From Stdlib Require Import ZArith List Lia Bool Permutation.
Import ListNotations.
Local Open Scope Z_scope.

(** ** The fragment of Go the latch is written in *)

Module Go.

(** [uint]: an unsigned machine integer, carried as a [Z] in
    [0, 2^UintSize); subtraction wraps around.  [UintSize] is 64 on the
    usual targets; the proofs below only use that the modulus is
    positive. *)
Definition UintSize : Z := 64.
Definition uint_modulus : Z := 2 ^ UintSize.
Definition is_uint (x : Z) : Prop := 0 <= x < uint_modulus.
Definition uint_sub (x y : Z) : Z := (x - y) mod uint_modulus.

(** [sync.Mutex]; its zero value is unlocked. *)
Inductive Mutex : Type := Unlocked | Locked.

(** [Lock] cannot proceed on a locked mutex. *)
Definition mutex_Lock (mu : Mutex) : option Mutex :=
  match mu with
  | Unlocked => Some Locked
  | Locked => None
  end.

(** [Unlock] of an unlocked mutex is a fatal run-time error. *)
Definition mutex_Unlock (mu : Mutex) : option Mutex :=
  match mu with
  | Locked => Some Unlocked
  | Unlocked => None
  end.

(** A [chan struct{}] nobody ever sends on: all that can be observed is
    whether it has been closed. *)
Inductive chan : Type := ChOpen | ChClosed.

(** A receive can proceed exactly on a closed channel. *)
Definition recv_ready (c : chan) : bool :=
  match c with
  | ChClosed => true
  | ChOpen => false
  end.

(** [close] of a closed channel panics. *)
Definition chan_close (c : chan) : option chan :=
  match c with
  | ChOpen => Some ChClosed
  | ChClosed => None
  end.

(** The only externally visible event: a channel was closed, which
    releases every present and future receiver. *)
Inductive event : Type := EvClose.

(** Outcome of running a piece of code on a state of type [S]. *)
Inductive outcome (S A : Type) : Type :=
| Done (a : A) (s : S) (tr : list event)
| Blocked
| Panicked.
Arguments Done {S A} a s tr.
Arguments Blocked {S A}.
Arguments Panicked {S A}.

Definition M (S A : Type) : Type := S -> outcome S A.

Definition ret {S A} (a : A) : M S A := fun s => Done a s [].

(** Continue an outcome with more code, appending the events. *)
Definition and_then {S A B} (o : outcome S A) (k : A -> M S B) : outcome S B :=
  match o with
  | Done a s tr =>
      match k a s with
      | Done b s' tr' => Done b s' (tr ++ tr')
      | Blocked => Blocked
      | Panicked => Panicked
      end
  | Blocked => Blocked
  | Panicked => Panicked
  end.

Definition bind {S A B} (c : M S A) (k : A -> M S B) : M S B :=
  fun s => and_then (c s) k.

Definition gets {S A} (f : S -> A) : M S A := fun s => Done (f s) s [].
Definition modify {S} (f : S -> S) : M S unit := fun s => Done tt (f s) [].

(** [defer d; return body]: the result of [body] is computed first, the
    deferred call runs on the way out. *)
Definition deferring {S A} (d : M S unit) (body : M S A) : M S A :=
  bind body (fun a => bind d (fun _ => ret a)).

(** [select] over two receive cases.  When both can proceed Go picks one
    by a uniform pseudo-random choice, here the argument [pick]; when
    none can, the goroutine stays blocked. *)
Inductive select_case : Type := FirstCase | SecondCase.

Definition select2 (ready1 ready2 : bool) (pick : select_case)
  : option select_case :=
  match ready1, ready2 with
  | true, true => Some pick
  | true, false => Some FirstCase
  | false, true => Some SecondCase
  | false, false => None
  end.

(** [time.After(d)]: its channel delivers once [d] has elapsed since the
    timer was created; [elapsed] is the time that has passed when the
    enclosing [select] commits.  A [time.Duration] is a number of
    nanoseconds. *)
Definition timer_fired (d elapsed : Z) : bool := d <=? elapsed.

(** Number of [close] events in a trace. *)
Definition fired (tr : list event) : nat := length tr.

End Go.

Import Go.

Declare Scope go_scope.
Delimit Scope go_scope with go.
Notation "x <- c ;; k" := (bind c (fun x => k))
  (at level 61, c at next level, right associativity) : go_scope.
Notation "c ;; k" := (bind c (fun _ => k))
  (at level 61, right associativity) : go_scope.

(** ** Package congo (countdownlatch.go, errors.go) *)

Module Congo.

(** The [error] results of the package: [nil] or the one error value. *)
Inductive error : Type := nil | ErrCountDownLatchCompleted.

Record CountDownLatch : Type := {
  m : Mutex;
  remainingCount : Z;
  countDownCompleteCh : chan
}.

Definition set_m (mu : Mutex) (latch : CountDownLatch) : CountDownLatch :=
  {| m := mu;
     remainingCount := remainingCount latch;
     countDownCompleteCh := countDownCompleteCh latch |}.

Definition set_remainingCount (n : Z) (latch : CountDownLatch) : CountDownLatch :=
  {| m := m latch;
     remainingCount := n;
     countDownCompleteCh := countDownCompleteCh latch |}.

Definition set_countDownCompleteCh (c : chan) (latch : CountDownLatch) : CountDownLatch :=
  {| m := m latch;
     remainingCount := remainingCount latch;
     countDownCompleteCh := c |}.

(** [latch.m.Lock()] *)
Definition Lock : M CountDownLatch unit := fun latch =>
  match mutex_Lock (m latch) with
  | Some mu => Done tt (set_m mu latch) []
  | None => Blocked
  end.

(** [latch.m.Unlock()] *)
Definition Unlock : M CountDownLatch unit := fun latch =>
  match mutex_Unlock (m latch) with
  | Some mu => Done tt (set_m mu latch) []
  | None => Panicked
  end.

(** [close(latch.countDownCompleteCh)] *)
Definition close_countDownCompleteCh : M CountDownLatch unit := fun latch =>
  match chan_close (countDownCompleteCh latch) with
  | Some c => Done tt (set_countDownCompleteCh c latch) [EvClose]
  | None => Panicked
  end.

(** [NewCountDownLatch(count)]: the fresh latch, and the events emitted
    while building it. *)
Definition NewCountDownLatch (count : Z) : outcome CountDownLatch unit :=
  let latch := {| m := Unlocked;
                  remainingCount := count;
                  countDownCompleteCh := ChOpen |} in
  (if remainingCount latch =? 0
   then close_countDownCompleteCh
   else ret tt) latch.

Local Open Scope go_scope.

(** [doCountDown(weight)]; the caller holds the mutex.  The [select] with
    a [default] branch is a non-blocking test of the channel. *)
Definition doCountDown (weight : Z) : M CountDownLatch error := fun latch =>
  if recv_ready (countDownCompleteCh latch)
  then Done ErrCountDownLatchCompleted latch []
  else
    ((if remainingCount latch >? weight
      then modify (set_remainingCount (uint_sub (remainingCount latch) weight))
      else (modify (set_remainingCount 0) ;; close_countDownCompleteCh)) ;;
     ret nil) latch.

Definition Count : M CountDownLatch Z :=
  Lock ;; deferring Unlock (gets remainingCount).

Definition CountDown : M CountDownLatch error :=
  Lock ;; deferring Unlock (doCountDown 1).

Definition WeightedCountDown (weight : Z) : M CountDownLatch error :=
  Lock ;; deferring Unlock (doCountDown weight).

Definition Complete : M CountDownLatch error :=
  Lock ;; deferring Unlock (w <- gets remainingCount ;; doCountDown w).

(** [<-latch.countDownCompleteCh] *)
Definition Wait : M CountDownLatch unit := fun latch =>
  if recv_ready (countDownCompleteCh latch)
  then Done tt latch []
  else Blocked.

(** The [select] of [WaitTimeout]: first case the completion channel,
    second case the timer.  The method takes [timeout]; [elapsed] and
    [pick] are the run-time's part in the outcome, the time on the timer
    when the [select] commits and its choice among ready cases. *)
Definition WaitTimeout (timeout elapsed : Z) (pick : select_case)
  : M CountDownLatch bool := fun latch =>
  match select2 (recv_ready (countDownCompleteCh latch))
                (timer_fired timeout elapsed) pick with
  | Some FirstCase => Done true latch []
  | Some SecondCase => Done false latch []
  | None => Blocked
  end.

(** The API as data: a call and what it returns. *)
Inductive call : Type :=
| CallCount
| CallCountDown
| CallWeightedCountDown (weight : Z)
| CallComplete
| CallWait
| CallWaitTimeout (timeout elapsed : Z) (pick : select_case).

Inductive value : Type :=
| VUint (n : Z)
| VError (e : error)
| VUnit
| VBool (b : bool).

Definition exec (c : call) : M CountDownLatch value :=
  match c with
  | CallCount => n <- Count ;; ret (VUint n)
  | CallCountDown => e <- CountDown ;; ret (VError e)
  | CallWeightedCountDown weight => e <- WeightedCountDown weight ;; ret (VError e)
  | CallComplete => e <- Complete ;; ret (VError e)
  | CallWait => Wait ;; ret VUnit
  | CallWaitTimeout timeout elapsed pick =>
      b <- WaitTimeout timeout elapsed pick ;; ret (VBool b)
  end.

Fixpoint run (cs : list call) : M CountDownLatch (list value) :=
  match cs with
  | [] => ret []
  | c :: cs' => v <- exec c ;; vs <- run cs' ;; ret (v :: vs)
  end.

(** A latch built by [NewCountDownLatch(count)] and then driven through
    the calls [cs]. *)
Definition lifetime (count : Z) (cs : list call)
  : outcome CountDownLatch (list value) :=
  and_then (NewCountDownLatch count) (fun _ => run cs).

(** Arguments of type [uint] are in range. *)
Definition call_ok (c : call) : Prop :=
  match c with
  | CallWeightedCountDown weight => is_uint weight
  | _ => True
  end.

(** A latch between two calls: the mutex is free and the counter is a
    [uint]. *)
Definition idle (latch : CountDownLatch) : Prop :=
  m latch = Unlocked /\ is_uint (remainingCount latch).

Definition completed (latch : CountDownLatch) : Prop :=
  countDownCompleteCh latch = ChClosed.

End Congo.

(** ** Package latch (the earlier implementation)

  It has no [Complete] and no [doCountDown]: [WeightedCountDown] holds
  the whole decrement, and [CountDown] calls it. *)

Module Latch.

Inductive error : Type := nil | ErrLatchCompleted.

Record CountDownLatch : Type := {
  m : Mutex;
  remainingCount : Z;
  countDownCompleteCh : chan
}.

Definition set_m (mu : Mutex) (latch : CountDownLatch) : CountDownLatch :=
  {| m := mu;
     remainingCount := remainingCount latch;
     countDownCompleteCh := countDownCompleteCh latch |}.

Definition set_remainingCount (n : Z) (latch : CountDownLatch) : CountDownLatch :=
  {| m := m latch;
     remainingCount := n;
     countDownCompleteCh := countDownCompleteCh latch |}.

Definition set_countDownCompleteCh (c : chan) (latch : CountDownLatch) : CountDownLatch :=
  {| m := m latch;
     remainingCount := remainingCount latch;
     countDownCompleteCh := c |}.

Definition Lock : M CountDownLatch unit := fun latch =>
  match mutex_Lock (m latch) with
  | Some mu => Done tt (set_m mu latch) []
  | None => Blocked
  end.

Definition Unlock : M CountDownLatch unit := fun latch =>
  match mutex_Unlock (m latch) with
  | Some mu => Done tt (set_m mu latch) []
  | None => Panicked
  end.

Definition close_countDownCompleteCh : M CountDownLatch unit := fun latch =>
  match chan_close (countDownCompleteCh latch) with
  | Some c => Done tt (set_countDownCompleteCh c latch) [EvClose]
  | None => Panicked
  end.

(** [New(count)] *)
Definition New (count : Z) : outcome CountDownLatch unit :=
  let latch := {| m := Unlocked;
                  remainingCount := count;
                  countDownCompleteCh := ChOpen |} in
  (if remainingCount latch =? 0
   then close_countDownCompleteCh
   else ret tt) latch.

Local Open Scope go_scope.

Definition Count : M CountDownLatch Z :=
  Lock ;; deferring Unlock (gets remainingCount).

Definition WeightedCountDown (weight : Z) : M CountDownLatch error :=
  Lock ;;
  deferring Unlock (fun latch =>
    if recv_ready (countDownCompleteCh latch)
    then Done ErrLatchCompleted latch []
    else
      ((if remainingCount latch >? weight
        then modify (set_remainingCount (uint_sub (remainingCount latch) weight))
        else (modify (set_remainingCount 0) ;; close_countDownCompleteCh)) ;;
       ret nil) latch).

Definition CountDown : M CountDownLatch error := WeightedCountDown 1.

Definition Wait : M CountDownLatch unit := fun latch =>
  if recv_ready (countDownCompleteCh latch)
  then Done tt latch []
  else Blocked.

Definition WaitTimeout (timeout elapsed : Z) (pick : select_case)
  : M CountDownLatch bool := fun latch =>
  match select2 (recv_ready (countDownCompleteCh latch))
                (timer_fired timeout elapsed) pick with
  | Some FirstCase => Done true latch []
  | Some SecondCase => Done false latch []
  | None => Blocked
  end.

Inductive call : Type :=
| CallCount
| CallCountDown
| CallWeightedCountDown (weight : Z)
| CallWait
| CallWaitTimeout (timeout elapsed : Z) (pick : select_case).

Inductive value : Type :=
| VUint (n : Z)
| VError (e : error)
| VUnit
| VBool (b : bool).

Definition exec (c : call) : M CountDownLatch value :=
  match c with
  | CallCount => n <- Count ;; ret (VUint n)
  | CallCountDown => e <- CountDown ;; ret (VError e)
  | CallWeightedCountDown weight => e <- WeightedCountDown weight ;; ret (VError e)
  | CallWait => Wait ;; ret VUnit
  | CallWaitTimeout timeout elapsed pick =>
      b <- WaitTimeout timeout elapsed pick ;; ret (VBool b)
  end.

Fixpoint run (cs : list call) : M CountDownLatch (list value) :=
  match cs with
  | [] => ret []
  | c :: cs' => v <- exec c ;; vs <- run cs' ;; ret (v :: vs)
  end.

Definition lifetime (count : Z) (cs : list call)
  : outcome CountDownLatch (list value) :=
  and_then (New count) (fun _ => run cs).

End Latch.

(** ** Reading a run of package latch as a run of package congo *)

Module Equiv.

Definition congo_latch (latch : Latch.CountDownLatch) : Congo.CountDownLatch :=
  {| Congo.m := Latch.m latch;
     Congo.remainingCount := Latch.remainingCount latch;
     Congo.countDownCompleteCh := Latch.countDownCompleteCh latch |}.

Definition congo_error (e : Latch.error) : Congo.error :=
  match e with
  | Latch.nil => Congo.nil
  | Latch.ErrLatchCompleted => Congo.ErrCountDownLatchCompleted
  end.

Definition congo_value (v : Latch.value) : Congo.value :=
  match v with
  | Latch.VUint n => Congo.VUint n
  | Latch.VError e => Congo.VError (congo_error e)
  | Latch.VUnit => Congo.VUnit
  | Latch.VBool b => Congo.VBool b
  end.

Definition congo_call (c : Latch.call) : Congo.call :=
  match c with
  | Latch.CallCount => Congo.CallCount
  | Latch.CallCountDown => Congo.CallCountDown
  | Latch.CallWeightedCountDown weight => Congo.CallWeightedCountDown weight
  | Latch.CallWait => Congo.CallWait
  | Latch.CallWaitTimeout timeout elapsed pick =>
      Congo.CallWaitTimeout timeout elapsed pick
  end.

Definition congo_outcome {A B} (f : A -> B) (o : outcome Latch.CountDownLatch A)
  : outcome Congo.CountDownLatch B :=
  match o with
  | Done a latch tr => Done (f a) (congo_latch latch) tr
  | Blocked => Blocked
  | Panicked => Panicked
  end.

End Equiv.

(** ** Vocabulary of the specification, over package congo *)

Module Spec.

(** The latch invariant of the data model, together with the history of
    the completion signal: [tr] is every event since construction. *)
Definition latch_inv (latch : Congo.CountDownLatch) (tr : list event) : Prop :=
  Congo.idle latch /\
  (Congo.completed latch <-> Congo.remainingCount latch = 0) /\
  (Congo.completed latch <-> tr = [EvClose]) /\
  (~ Congo.completed latch <-> tr = []).

(** A sequence of weighted decrements, as calls. *)
Definition decrements (ws : list Z) : list Congo.call :=
  map Congo.CallWeightedCountDown ws.

Definition total (ws : list Z) : Z := fold_right Z.add 0 ws.

(** Every weight but the last is strictly below what [Count()] reports
    when the call is made. *)
Fixpoint below_remaining (ws : list Z) (latch : Congo.CountDownLatch) : Prop :=
  match ws with
  | [] => True
  | w :: ws' =>
      match ws' with
      | [] => True
      | _ :: _ =>
          match Congo.Count latch, Congo.WeightedCountDown w latch with
          | Done n _ _, Done _ latch' _ => w < n /\ below_remaining ws' latch'
          | _, _ => False
          end
      end
  end.

(** The same, from construction with [count]. *)
Definition each_but_last_below (count : Z) (ws : list Z) : Prop :=
  match Congo.NewCountDownLatch count with
  | Done _ latch _ => below_remaining ws latch
  | _ => False
  end.

(** What the specification asks of the error result of a decrement [F]
    called on [latch]: the call returns; it returns the error exactly
    when the latch was complete; and then nothing has changed. *)
Definition errors_iff_completed
    (F : M Congo.CountDownLatch Congo.error) (latch : Congo.CountDownLatch) : Prop :=
  exists e latch' tr,
    F latch = Done e latch' tr /\
    (e = Congo.ErrCountDownLatchCompleted <-> Congo.completed latch) /\
    (e = Congo.ErrCountDownLatchCompleted -> latch' = latch /\ tr = []).

(** A latch at rest with the given counter and channel. *)
Definition at_rest (count : Z) (c : chan) : Congo.CountDownLatch :=
  {| Congo.m := Unlocked;
     Congo.remainingCount := count;
     Congo.countDownCompleteCh := c |}.

End Spec.

(** ** Vocabulary for how the latch is used *)

Module Usage.

(** What a sequence of decrements returns, told from the balance alone:
    [balance] is the construction count minus the weights of the calls
    made so far, as an integer that may go below zero.  A call fails
    exactly when the balance it finds is used up. *)
Fixpoint decrement_results (balance : Z) (ws : list Z) : list Congo.value :=
  match ws with
  | [] => []
  | w :: ws' =>
      Congo.VError (if balance <=? 0
                    then Congo.ErrCountDownLatchCompleted
                    else Congo.nil)
      :: decrement_results (balance - w) ws'
  end.

(** The latch that goes with a balance: the counter is the balance cut
    off at 0, the channel is closed once nothing is left. *)
Definition latch_of_balance (balance : Z) : Congo.CountDownLatch :=
  Spec.at_rest (Z.max 0 balance) (if balance <=? 0 then ChClosed else ChOpen).

(** The [close] events between two balances. *)
Definition closes_between (before after : Z) : list event :=
  if (0 <? before) && (after <=? 0) then [EvClose] else [].

(** Calls that go through [m.Lock()]. *)
Definition takes_lock (c : Congo.call) : bool :=
  match c with
  | Congo.CallCount | Congo.CallCountDown
  | Congo.CallWeightedCountDown _ | Congo.CallComplete => true
  | Congo.CallWait | Congo.CallWaitTimeout _ _ _ => false
  end.

(** Calls that can change the latch. *)
Definition mutates (c : Congo.call) : bool :=
  match c with
  | Congo.CallCountDown | Congo.CallWeightedCountDown _
  | Congo.CallComplete => true
  | Congo.CallCount | Congo.CallWait | Congo.CallWaitTimeout _ _ _ => false
  end.

Definition mutators (cs : list Congo.call) : list Congo.call :=
  filter mutates cs.

(** The results of the mutating calls among the results [vs] of [cs]. *)
Definition mutator_values (cs : list Congo.call) (vs : list Congo.value)
  : list Congo.value :=
  map snd (filter (fun p => mutates (fst p)) (combine cs vs)).

(** [uint] arguments of package latch are in range. *)
Definition latch_call_ok (c : Latch.call) : Prop :=
  match c with
  | Latch.CallWeightedCountDown weight => is_uint weight
  | _ => True
  end.

End Usage.

(** ** Proof tactics *)

(** Unfold the methods of a package down to the primitives. *)
Ltac congo_unfold :=
  unfold Congo.Count, Congo.CountDown, Congo.WeightedCountDown,
    Congo.Complete, Congo.doCountDown, Congo.Wait, Congo.WaitTimeout,
    Congo.Lock, Congo.Unlock, Congo.close_countDownCompleteCh,
    Congo.set_m, Congo.set_remainingCount, Congo.set_countDownCompleteCh,
    deferring, bind, and_then, gets, modify, ret;
  cbn.

Ltac latch_unfold :=
  unfold Latch.Count, Latch.CountDown, Latch.WeightedCountDown,
    Latch.Wait, Latch.WaitTimeout,
    Latch.Lock, Latch.Unlock, Latch.close_countDownCompleteCh,
    Latch.set_m, Latch.set_remainingCount, Latch.set_countDownCompleteCh,
    deferring, bind, and_then, gets, modify, ret;
  cbn.

(** Closed range side conditions. *)
Ltac uint_range := unfold is_uint; cbn; split; [lia | reflexivity].

Ltac calls_ok :=
  repeat (apply Forall_cons; [first [exact I | uint_range] |]);
  apply Forall_nil.

(** Case analysis on integer comparisons. *)
Ltac zbool :=
  repeat match goal with
         | |- context [?a <=? ?b] => destruct (Z.leb_spec a b)
         | |- context [?a <? ?b] => destruct (Z.ltb_spec a b)
         end;
  cbn; try lia; try reflexivity.

Example congo_new_3 :
  Congo.NewCountDownLatch 3 =
  Done tt (Congo.Build_CountDownLatch Unlocked 3 ChOpen) [].
Proof. reflexivity. Qed.

Example congo_new_0 :
  Congo.NewCountDownLatch 0 =
  Done tt (Congo.Build_CountDownLatch Unlocked 0 ChClosed) [EvClose].
Proof. reflexivity. Qed.

Example congo_test_complete :
  Congo.lifetime 1000000
    [Congo.CallWeightedCountDown 300000; Congo.CallCount;
     Congo.CallComplete; Congo.CallCount; Congo.CallComplete] =
  Done [Congo.VError Congo.nil; Congo.VUint 700000;
        Congo.VError Congo.nil; Congo.VUint 0;
        Congo.VError Congo.ErrCountDownLatchCompleted]
       (Congo.Build_CountDownLatch Unlocked 0 ChClosed) [EvClose].
Proof. vm_compute. reflexivity. Qed.

(** * Proofs *)

(** ** Machine arithmetic *)

Arguments uint_sub : simpl never.
Arguments uint_modulus : simpl never.

Lemma uint_modulus_pos : 0 < uint_modulus.
Proof. reflexivity. Qed.

Lemma is_uint_0 : is_uint 0.
Proof. split; [lia | apply uint_modulus_pos]. Qed.

(** Below the counter, the wrapping subtraction is the exact one. *)
Lemma uint_sub_exact r w :
  is_uint r -> 0 <= w -> w < r -> uint_sub r w = r - w.
Proof.
  unfold is_uint, uint_sub. intros Hr Hw Hlt.
  apply Z.mod_small. lia.
Qed.

Lemma uint_sub_is_uint r w : is_uint (uint_sub r w).
Proof.
  unfold is_uint, uint_sub.
  apply Z.mod_pos_bound, uint_modulus_pos.
Qed.

Lemma gtb_true r w : (r >? w) = true <-> w < r.
Proof. rewrite Z.gtb_ltb. apply Z.ltb_lt. Qed.

Lemma gtb_false r w : (r >? w) = false <-> r <= w.
Proof. rewrite Z.gtb_ltb. rewrite Z.ltb_ge. reflexivity. Qed.

(** ** The methods of package congo as state transformers *)

(** The latch a completing decrement leaves behind. *)
Lemma doCountDown_under_lock (weight : Z) (latch : Congo.CountDownLatch) :
  Congo.m latch = Unlocked ->
  Congo.WeightedCountDown weight latch =
  match Congo.countDownCompleteCh latch with
  | ChClosed => Done Congo.ErrCountDownLatchCompleted latch []
  | ChOpen =>
      if Congo.remainingCount latch >? weight
      then Done Congo.nil
             (Congo.set_remainingCount
                (uint_sub (Congo.remainingCount latch) weight) latch) []
      else Done Congo.nil
             (Congo.Build_CountDownLatch Unlocked 0 ChClosed) [EvClose]
  end.
Proof.
  destruct latch as [mu r ch]; cbn; intros ->.
  congo_unfold.
  destruct ch; cbn; [destruct (r >? weight); reflexivity | reflexivity].
Qed.

Lemma CountDown_is_weight_1 (latch : Congo.CountDownLatch) :
  Congo.CountDown latch = Congo.WeightedCountDown 1 latch.
Proof. reflexivity. Qed.

Lemma Complete_is_weight_remaining (latch : Congo.CountDownLatch) :
  Congo.Complete latch =
  Congo.WeightedCountDown (Congo.remainingCount latch) latch.
Proof.
  destruct latch as [[|] r [|]]; congo_unfold; try reflexivity.
  destruct (r >? r); reflexivity.
Qed.

Lemma Count_idle (latch : Congo.CountDownLatch) :
  Congo.m latch = Unlocked ->
  Congo.Count latch = Done (Congo.remainingCount latch) latch [].
Proof.
  destruct latch as [mu r ch]; cbn; intros ->. congo_unfold. reflexivity.
Qed.

Lemma set_remainingCount_same (latch : Congo.CountDownLatch) :
  Congo.set_remainingCount (Congo.remainingCount latch) latch = latch.
Proof. destruct latch; reflexivity. Qed.

Lemma not_completed_open (latch : Congo.CountDownLatch) :
  ~ Congo.completed latch <-> Congo.countDownCompleteCh latch = ChOpen.
Proof.
  unfold Congo.completed.
  destruct (Congo.countDownCompleteCh latch); split; intros H;
    congruence || (exfalso; apply H; reflexivity).
Qed.

Lemma WeightedCountDown_errors_iff_completed (w : Z) (latch : Congo.CountDownLatch) :
  Congo.m latch = Unlocked ->
  Spec.errors_iff_completed (Congo.WeightedCountDown w) latch.
Proof.
  intros Hm. unfold Spec.errors_iff_completed, Congo.completed.
  rewrite (doCountDown_under_lock w latch Hm).
  destruct (Congo.countDownCompleteCh latch) eqn:Hch.
  - destruct (Congo.remainingCount latch >? w);
      eexists _, _, _; (split; [reflexivity|]); split;
        try (split; discriminate); discriminate.
  - eexists _, _, _; split; [reflexivity|]. repeat split; reflexivity.
Qed.

(** ** The decrement step *)

(** C1. On a latch that is not complete, [WeightedCountDown(w)] with a
    weight [w >= 0] returns [nil]; when [w < remaining] the counter becomes
    [remaining - w], nothing else changes and no [close] happens; when
    [w >= remaining] the counter becomes 0 and the channel is closed. *)
Theorem WeightedCountDown_two_branch_step
    (latch : Congo.CountDownLatch) (w : Z) :
  Congo.idle latch -> ~ Congo.completed latch -> 0 <= w ->
  (w < Congo.remainingCount latch ->
   Congo.WeightedCountDown w latch =
   Done Congo.nil
     (Congo.set_remainingCount (Congo.remainingCount latch - w) latch) []) /\
  (Congo.remainingCount latch <= w ->
   Congo.WeightedCountDown w latch =
   Done Congo.nil (Spec.at_rest 0 ChClosed) [EvClose]).
Proof.
  intros [Hm Hr] Hopen Hw.
  apply not_completed_open in Hopen.
  rewrite (doCountDown_under_lock w latch Hm), Hopen.
  split; intros Hcmp.
  - rewrite (proj2 (gtb_true _ _) Hcmp).
    rewrite (uint_sub_exact _ _ Hr Hw Hcmp). reflexivity.
  - rewrite (proj2 (gtb_false _ _) Hcmp). reflexivity.
Qed.

Lemma WeightedCountDown_two_branch_step_witness :
  Congo.WeightedCountDown 2 (Spec.at_rest 5 ChOpen) =
    Done Congo.nil (Spec.at_rest 3 ChOpen) [] /\
  Congo.WeightedCountDown 7 (Spec.at_rest 5 ChOpen) =
    Done Congo.nil (Spec.at_rest 0 ChClosed) [EvClose].
Proof.
  assert (H5 : Congo.idle (Spec.at_rest 5 ChOpen)).
  { split; [reflexivity | uint_range]. }
  assert (Ho : ~ Congo.completed (Spec.at_rest 5 ChOpen)).
  { unfold Congo.completed; simpl; discriminate. }
  split.
  - apply (WeightedCountDown_two_branch_step (Spec.at_rest 5 ChOpen) 2 H5 Ho).
    + lia.
    + simpl; lia.
  - apply (WeightedCountDown_two_branch_step (Spec.at_rest 5 ChOpen) 7 H5 Ho).
    + lia.
    + simpl; lia.
Defined.

(** C2. On a latch at rest, each of [CountDown()], [WeightedCountDown(w)]
    (any [w], 0 included) and [Complete()] returns, returns
    [ErrCountDownLatchCompleted] exactly when the completion channel was
    already closed, and on that error leaves the latch as it was and
    emits nothing. *)
Theorem AlreadyCompleted_iff_completed
    (latch : Congo.CountDownLatch) (w : Z) :
  Congo.m latch = Unlocked ->
  Spec.errors_iff_completed Congo.CountDown latch /\
  Spec.errors_iff_completed (Congo.WeightedCountDown w) latch /\
  Spec.errors_iff_completed Congo.Complete latch.
Proof.
  intros Hm. repeat split.
  - unfold Spec.errors_iff_completed. rewrite CountDown_is_weight_1.
    apply (WeightedCountDown_errors_iff_completed 1 latch Hm).
  - apply (WeightedCountDown_errors_iff_completed w latch Hm).
  - unfold Spec.errors_iff_completed. rewrite Complete_is_weight_remaining.
    apply (WeightedCountDown_errors_iff_completed _ latch Hm).
Qed.

Lemma AlreadyCompleted_iff_completed_witness :
  Spec.errors_iff_completed Congo.CountDown (Spec.at_rest 0 ChClosed) /\
  Spec.errors_iff_completed (Congo.WeightedCountDown 0) (Spec.at_rest 0 ChClosed) /\
  Spec.errors_iff_completed Congo.Complete (Spec.at_rest 0 ChClosed).
Proof.
  apply (AlreadyCompleted_iff_completed (Spec.at_rest 0 ChClosed) 0).
  reflexivity.
Defined.

(** C4. [Complete()] is [WeightedCountDown(r)] for the counter [r] read
    under the same lock; on a latch at rest it closes the channel, zeroes
    the counter and returns [nil] when the latch was not complete, and
    returns [ErrCountDownLatchCompleted], changing nothing, when it was. *)
Theorem Complete_is_WeightedCountDown_remaining (latch : Congo.CountDownLatch) :
  Congo.Complete latch =
    Congo.WeightedCountDown (Congo.remainingCount latch) latch /\
  (Congo.m latch = Unlocked ->
   (~ Congo.completed latch ->
    Congo.Complete latch =
      Done Congo.nil (Spec.at_rest 0 ChClosed) [EvClose]) /\
   (Congo.completed latch ->
    Congo.Complete latch =
      Done Congo.ErrCountDownLatchCompleted latch [])).
Proof.
  split; [apply Complete_is_weight_remaining|].
  intros Hm. rewrite Complete_is_weight_remaining.
  rewrite (doCountDown_under_lock _ latch Hm).
  split; intros Hc.
  - apply not_completed_open in Hc. rewrite Hc.
    rewrite (proj2 (gtb_false _ _) (Z.le_refl _)). reflexivity.
  - unfold Congo.completed in Hc. rewrite Hc. reflexivity.
Qed.

Lemma Complete_is_WeightedCountDown_remaining_witness :
  Congo.Complete (Spec.at_rest 5 ChOpen) =
    Done Congo.nil (Spec.at_rest 0 ChClosed) [EvClose] /\
  Congo.Complete (Spec.at_rest 0 ChClosed) =
    Done Congo.ErrCountDownLatchCompleted (Spec.at_rest 0 ChClosed) [].
Proof.
  split.
  - apply (proj2 (Complete_is_WeightedCountDown_remaining (Spec.at_rest 5 ChOpen))).
    + reflexivity.
    + unfold Congo.completed; cbn; discriminate.
  - apply (proj2 (Complete_is_WeightedCountDown_remaining (Spec.at_rest 0 ChClosed))).
    + reflexivity.
    + reflexivity.
Defined.

(** C6. On a latch at rest whose counter is positive and whose channel is
    open, [WeightedCountDown(0)] returns [nil], leaves the latch exactly
    as it was and closes nothing; on a completed latch the same call
    returns [ErrCountDownLatchCompleted]. *)
Theorem WeightedCountDown_zero_weight (latch : Congo.CountDownLatch) :
  Congo.idle latch ->
  (~ Congo.completed latch -> 0 < Congo.remainingCount latch ->
   Congo.WeightedCountDown 0 latch = Done Congo.nil latch []) /\
  (Congo.completed latch ->
   Congo.WeightedCountDown 0 latch =
     Done Congo.ErrCountDownLatchCompleted latch []).
Proof.
  intros [Hm Hr].
  rewrite (doCountDown_under_lock 0 latch Hm).
  split.
  - intros Hc Hpos. apply not_completed_open in Hc. rewrite Hc.
    rewrite (proj2 (gtb_true _ _) Hpos).
    rewrite (uint_sub_exact _ 0 Hr (Z.le_refl 0) Hpos).
    rewrite Z.sub_0_r, set_remainingCount_same. reflexivity.
  - unfold Congo.completed. intros ->. reflexivity.
Qed.

Lemma WeightedCountDown_zero_weight_witness :
  Congo.WeightedCountDown 0 (Spec.at_rest 5 ChOpen) =
    Done Congo.nil (Spec.at_rest 5 ChOpen) [] /\
  Congo.WeightedCountDown 0 (Spec.at_rest 0 ChClosed) =
    Done Congo.ErrCountDownLatchCompleted (Spec.at_rest 0 ChClosed) [].
Proof.
  split.
  - apply (WeightedCountDown_zero_weight (Spec.at_rest 5 ChOpen)).
    + split; [reflexivity | uint_range].
    + unfold Congo.completed; cbn; discriminate.
    + cbn; lia.
  - apply (WeightedCountDown_zero_weight (Spec.at_rest 0 ChClosed)).
    + split; [reflexivity | uint_range].
    + reflexivity.
Defined.

(** ** Construction *)

Lemma NewCountDownLatch_nonzero (count : Z) :
  count <> 0 ->
  Congo.NewCountDownLatch count = Done tt (Spec.at_rest count ChOpen) [].
Proof.
  intros Hn. unfold Congo.NewCountDownLatch; cbn.
  destruct (Z.eqb_spec count 0); [contradiction | reflexivity].
Qed.

Lemma NewCountDownLatch_zero :
  Congo.NewCountDownLatch 0 = Done tt (Spec.at_rest 0 ChClosed) [EvClose].
Proof. reflexivity. Qed.

(** C5. From [NewCountDownLatch(n)] with [n > 0], one call
    [WeightedCountDown(n + k)], [k >= 0], returns [nil]; afterwards
    [Count()] is 0, not a wrapped-around difference, and the channel is
    closed, by exactly one [close]. *)
Theorem overshoot_completes (n k : Z) :
  0 < n -> 0 <= k ->
  Congo.lifetime n [Congo.CallWeightedCountDown (n + k); Congo.CallCount] =
  Done [Congo.VError Congo.nil; Congo.VUint 0]
       (Spec.at_rest 0 ChClosed) [EvClose].
Proof.
  intros Hpos Hk.
  unfold Congo.lifetime.
  rewrite NewCountDownLatch_nonzero by lia.
  cbn [and_then Congo.run Congo.exec]. unfold bind at 1 2.
  rewrite (doCountDown_under_lock (n + k) (Spec.at_rest n ChOpen) eq_refl).
  cbn [Spec.at_rest Congo.countDownCompleteCh Congo.remainingCount].
  rewrite (proj2 (gtb_false n (n + k))) by lia.
  reflexivity.
Qed.

Lemma overshoot_completes_witness :
  Congo.lifetime 3 [Congo.CallWeightedCountDown (3 + 4); Congo.CallCount] =
  Done [Congo.VError Congo.nil; Congo.VUint 0]
       (Spec.at_rest 0 ChClosed) [EvClose].
Proof.
  apply (overshoot_completes 3 4); lia.
Defined.

(** C5, as first stated, at [n = 0] and [k = 0]: the latch is complete
    from construction on, and the call returns the error. *)
Lemma overshoot_fails_on_zero_latch :
  Congo.lifetime 0 [Congo.CallWeightedCountDown (0 + 0); Congo.CallCount] =
    Done [Congo.VError Congo.ErrCountDownLatchCompleted; Congo.VUint 0]
         (Spec.at_rest 0 ChClosed) [EvClose] /\
  ~ (forall n k : Z,
       is_uint n -> 0 <= k -> is_uint (n + k) ->
       exists latch tr,
         Congo.lifetime n [Congo.CallWeightedCountDown (n + k); Congo.CallCount] =
         Done [Congo.VError Congo.nil; Congo.VUint 0] latch tr).
Proof.
  split; [reflexivity|].
  intros H.
  destruct (H 0 0) as (latch & tr & Heq); [uint_range | lia | uint_range |].
  discriminate Heq.
Qed.

(** ** Calls on a completed latch *)

Lemma WaitTimeout_completed (timeout elapsed : Z) (pick : select_case)
    (latch : Congo.CountDownLatch) :
  Congo.completed latch ->
  Congo.WaitTimeout timeout elapsed pick latch =
  Done (if timer_fired timeout elapsed
        then match pick with FirstCase => true | SecondCase => false end
        else true) latch [].
Proof.
  unfold Congo.completed, Congo.WaitTimeout. intros ->. cbn.
  destruct (timer_fired timeout elapsed); [destruct pick|]; reflexivity.
Qed.

(** Every call on a completed latch at rest returns and changes nothing. *)
Lemma exec_completed (c : Congo.call) (latch : Congo.CountDownLatch) :
  Congo.m latch = Unlocked -> Congo.completed latch ->
  exists v, Congo.exec c latch = Done v latch [].
Proof.
  intros Hm Hc. pose proof Hc as Hch. unfold Congo.completed in Hch.
  destruct c; cbn [Congo.exec]; unfold bind.
  - rewrite (Count_idle latch Hm). eexists; reflexivity.
  - rewrite CountDown_is_weight_1, (doCountDown_under_lock _ latch Hm), Hch.
    eexists; reflexivity.
  - rewrite (doCountDown_under_lock _ latch Hm), Hch. eexists; reflexivity.
  - rewrite Complete_is_weight_remaining, (doCountDown_under_lock _ latch Hm), Hch.
    eexists; reflexivity.
  - unfold Congo.Wait. rewrite Hch. eexists; reflexivity.
  - rewrite (WaitTimeout_completed _ _ _ latch Hc). eexists; reflexivity.
Qed.

(** A run, one call at a time. *)
Lemma run_cons (c : Congo.call) (cs : list Congo.call)
    (latch : Congo.CountDownLatch) :
  Congo.run (c :: cs) latch =
  match Congo.exec c latch with
  | Done v latch1 tr1 =>
      match Congo.run cs latch1 with
      | Done vs latch2 tr2 => Done (v :: vs) latch2 (tr1 ++ tr2)
      | Blocked => Blocked
      | Panicked => Panicked
      end
  | Blocked => Blocked
  | Panicked => Panicked
  end.
Proof.
  cbn [Congo.run]. unfold bind, and_then, ret.
  destruct (Congo.exec c latch) as [v latch1 tr1| |]; try reflexivity.
  destruct (Congo.run cs latch1) as [vs latch2 tr2| |]; try reflexivity.
  rewrite app_nil_r. reflexivity.
Qed.

Lemma run_completed (cs : list Congo.call) (latch : Congo.CountDownLatch) :
  Congo.m latch = Unlocked -> Congo.completed latch ->
  exists vs, Congo.run cs latch = Done vs latch [].
Proof.
  intros Hm Hc. induction cs as [|c cs [vs IH]].
  - exists []. reflexivity.
  - destruct (exec_completed c latch Hm Hc) as [v Hv].
    exists (v :: vs). rewrite run_cons, Hv, IH. reflexivity.
Qed.

(** What does hold of a latch built with count 0:
    [NewCountDownLatch(0)] closes the channel before it returns, and the
    latch stays as it is under every sequence of calls, none of which
    blocks.  On it [Count()] returns 0, [Wait()] returns, [CountDown()]
    and [WeightedCountDown(w)] for every [w] return
    [ErrCountDownLatchCompleted], and [WaitTimeout(d)] returns without
    blocking, with [true] whenever the timer of [d] has not fired yet when
    the [select] runs, and with [true] whenever the [select] takes its
    first case. *)
Theorem zero_latch_complete_from_construction :
  Congo.NewCountDownLatch 0 = Done tt (Spec.at_rest 0 ChClosed) [EvClose] /\
  (forall cs, exists vs,
      Congo.run cs (Spec.at_rest 0 ChClosed) =
      Done vs (Spec.at_rest 0 ChClosed) []) /\
  Congo.Count (Spec.at_rest 0 ChClosed) = Done 0 (Spec.at_rest 0 ChClosed) [] /\
  Congo.Wait (Spec.at_rest 0 ChClosed) = Done tt (Spec.at_rest 0 ChClosed) [] /\
  (forall d elapsed pick,
      elapsed < d ->
      Congo.WaitTimeout d elapsed pick (Spec.at_rest 0 ChClosed) =
      Done true (Spec.at_rest 0 ChClosed) []) /\
  (forall d elapsed,
      Congo.WaitTimeout d elapsed FirstCase (Spec.at_rest 0 ChClosed) =
      Done true (Spec.at_rest 0 ChClosed) []) /\
  (forall d elapsed pick, exists b,
      Congo.WaitTimeout d elapsed pick (Spec.at_rest 0 ChClosed) =
      Done b (Spec.at_rest 0 ChClosed) []) /\
  Congo.CountDown (Spec.at_rest 0 ChClosed) =
    Done Congo.ErrCountDownLatchCompleted (Spec.at_rest 0 ChClosed) [] /\
  (forall w,
      Congo.WeightedCountDown w (Spec.at_rest 0 ChClosed) =
      Done Congo.ErrCountDownLatchCompleted (Spec.at_rest 0 ChClosed) []).
Proof.
  assert (Hc : Congo.completed (Spec.at_rest 0 ChClosed)) by reflexivity.
  repeat match goal with |- _ /\ _ => split end; try reflexivity.
  - intros cs. apply run_completed; reflexivity.
  - intros d elapsed pick Hlt. rewrite (WaitTimeout_completed _ _ _ _ Hc).
    unfold timer_fired. rewrite (proj2 (Z.leb_gt d elapsed) Hlt). reflexivity.
  - intros d elapsed. rewrite (WaitTimeout_completed _ _ _ _ Hc).
    destruct (timer_fired d elapsed); reflexivity.
  - intros d elapsed pick. rewrite (WaitTimeout_completed _ _ _ _ Hc).
    eexists; reflexivity.
Qed.

Lemma zero_latch_complete_from_construction_witness :
  Congo.WaitTimeout 1000000000 0 SecondCase (Spec.at_rest 0 ChClosed) =
  Done true (Spec.at_rest 0 ChClosed) [].
Proof.
  destruct zero_latch_complete_from_construction
    as (_ & _ & _ & _ & Hwt & _).
  apply (Hwt 1000000000 0 SecondCase). lia.
Defined.

(** C8. The code falls short of the claim, and of the comment on
    [WaitTimeout] (a count down completed before the timeout gives
    [true]): on the latch built by [NewCountDownLatch(0)],
    [WaitTimeout(0)] can return [false].  The method has no check of the
    channel before its [select]; with [d = 0] the timer has fired when
    the [select] runs, both cases can proceed, and the second one returns
    [false].  So [WaitTimeout(d)] does not return [true] for every [d]. *)
Lemma zero_latch_WaitTimeout_expired_timer :
  Congo.lifetime 0 [Congo.CallWaitTimeout 0 0 SecondCase] =
    Done [Congo.VBool false] (Spec.at_rest 0 ChClosed) [EvClose] /\
  ~ (forall d elapsed pick,
       Congo.WaitTimeout d elapsed pick (Spec.at_rest 0 ChClosed) =
       Done true (Spec.at_rest 0 ChClosed) []).
Proof.
  split; [reflexivity|].
  intros H. specialize (H 0 0 SecondCase). discriminate H.
Qed.

(** ** The latch invariant *)

(** What one call can do to a latch at rest: not return yet (a wait on an
    open channel), return leaving everything as it was, take a strict part
    of the counter, or complete the latch. *)
Lemma exec_cases (c : Congo.call) (latch : Congo.CountDownLatch) :
  Congo.m latch = Unlocked -> Congo.call_ok c ->
  Congo.exec c latch = Blocked \/
  (exists v, Congo.exec c latch = Done v latch []) \/
  (~ Congo.completed latch /\
   exists w, 0 <= w < Congo.remainingCount latch /\
     Congo.exec c latch =
     Done (Congo.VError Congo.nil)
       (Congo.set_remainingCount (uint_sub (Congo.remainingCount latch) w) latch)
       []) \/
  (~ Congo.completed latch /\
   Congo.exec c latch =
   Done (Congo.VError Congo.nil) (Spec.at_rest 0 ChClosed) [EvClose]).
Proof.
  intros Hm Hok.
  destruct (Congo.countDownCompleteCh latch) eqn:Hch.
  2:{ right; left. apply exec_completed; assumption. }
  assert (Hopen : ~ Congo.completed latch) by (apply not_completed_open; exact Hch).
  assert (Hdec : forall w, 0 <= w ->
    (exists w', 0 <= w' < Congo.remainingCount latch /\
       and_then (Congo.WeightedCountDown w latch) (fun e => ret (Congo.VError e)) =
       Done (Congo.VError Congo.nil)
         (Congo.set_remainingCount (uint_sub (Congo.remainingCount latch) w') latch)
         []) \/
    and_then (Congo.WeightedCountDown w latch) (fun e => ret (Congo.VError e)) =
    Done (Congo.VError Congo.nil) (Spec.at_rest 0 ChClosed) [EvClose]).
  { intros w Hw. rewrite (doCountDown_under_lock w latch Hm), Hch.
    destruct (Congo.remainingCount latch >? w) eqn:Hgt.
    - left. exists w. apply gtb_true in Hgt. split; [lia | reflexivity].
    - right. reflexivity. }
  destruct c; cbn [Congo.exec]; unfold bind.
  - right; left. rewrite (Count_idle latch Hm). eexists; reflexivity.
  - rewrite CountDown_is_weight_1.
    destruct (Hdec 1) as [H|H]; [lia | right; right; left | right; right; right];
      split; assumption.
  - destruct Hok as [Hw _].
    destruct (Hdec weight Hw) as [H|H]; [right; right; left | right; right; right];
      split; assumption.
  - right; right; right. split; [assumption|].
    rewrite Complete_is_weight_remaining, (doCountDown_under_lock _ latch Hm), Hch.
    rewrite (proj2 (gtb_false _ _) (Z.le_refl _)). reflexivity.
  - left. unfold Congo.Wait. rewrite Hch. reflexivity.
  - unfold Congo.WaitTimeout. rewrite Hch. cbn.
    destruct (timer_fired timeout elapsed); cbn.
    + right; left. eexists; reflexivity.
    + left. reflexivity.
Qed.

Lemma latch_inv_new (count : Z) :
  is_uint count ->
  exists latch tr,
    Congo.NewCountDownLatch count = Done tt latch tr /\ Spec.latch_inv latch tr.
Proof.
  intros Hc. destruct (Z.eq_dec count 0) as [->|Hn].
  - exists (Spec.at_rest 0 ChClosed), [EvClose]. split; [reflexivity|].
    unfold Spec.latch_inv, Congo.idle, Congo.completed; cbn.
    repeat split; try reflexivity; try exact (proj1 is_uint_0);
      try exact (proj2 is_uint_0); try discriminate.
    intros H; exfalso; apply H; reflexivity.
  - exists (Spec.at_rest count ChOpen), []. split.
    + apply NewCountDownLatch_nonzero; assumption.
    + unfold Spec.latch_inv, Congo.idle, Congo.completed; cbn.
      destruct Hc. repeat split; try assumption; try discriminate;
        try reflexivity; try congruence.
Qed.

(** One call keeps the invariant, never panics, never raises the counter,
    and changes nothing once the latch is complete. *)
Lemma exec_keeps_inv (c : Congo.call) (latch : Congo.CountDownLatch)
    (tr0 : list event) :
  Congo.call_ok c -> Spec.latch_inv latch tr0 ->
  Congo.exec c latch <> Panicked /\
  forall v latch' tr,
    Congo.exec c latch = Done v latch' tr ->
    Spec.latch_inv latch' (tr0 ++ tr) /\
    Congo.remainingCount latch' <= Congo.remainingCount latch /\
    (Congo.completed latch -> latch' = latch /\ tr = []).
Proof.
  intros Hok ([Hm Hr] & Hzero & Hfired & Hnot).
  destruct (exec_cases c latch Hm Hok)
    as [Hb | [[v Hv] | [(Hopen & w & Hw & Hv) | (Hopen & Hv)]]];
    rewrite ?Hb, ?Hv; (split; [discriminate|]); intros v' latch' tr Heq;
    try discriminate; injection Heq as <- <- <-.
  - rewrite app_nil_r.
    split; [unfold Spec.latch_inv, Congo.idle; tauto|].
    split; [lia | intros _; split; reflexivity].
  - rewrite app_nil_r.
    rewrite (uint_sub_exact _ w Hr (proj1 Hw) (proj2 Hw)).
    unfold Spec.latch_inv, Congo.idle, Congo.completed in *; cbn.
    unfold is_uint in *.
    repeat split; try assumption; try lia; try tauto.
  - apply Hnot in Hopen. subst tr0. cbn.
    unfold Spec.latch_inv, Congo.idle, Congo.completed; cbn.
    unfold is_uint in *. pose proof uint_modulus_pos.
    repeat split; try reflexivity; try lia; try discriminate; try tauto.
Qed.

Lemma run_keeps_inv (cs : list Congo.call) :
  Forall Congo.call_ok cs ->
  forall (latch : Congo.CountDownLatch) (tr0 : list event),
  Spec.latch_inv latch tr0 ->
  Congo.run cs latch <> Panicked /\
  forall vs latch' tr,
    Congo.run cs latch = Done vs latch' tr ->
    Spec.latch_inv latch' (tr0 ++ tr) /\
    Congo.remainingCount latch' <= Congo.remainingCount latch /\
    (Congo.completed latch -> latch' = latch /\ tr = []).
Proof.
  induction 1 as [|c cs Hc Hcs IH]; intros latch tr0 Hinv.
  - split; [discriminate|]. intros vs latch' tr Heq.
    injection Heq as <- <- <-. rewrite app_nil_r.
    split; [assumption | split; [lia | intros _; split; reflexivity]].
  - destruct (exec_keeps_inv c latch tr0 Hc Hinv) as [Hnp Hstep].
    rewrite run_cons.
    destruct (Congo.exec c latch) as [v latch1 tr1| |] eqn:He.
    2:{ split; [discriminate | intros; discriminate]. }
    2:{ exfalso; apply Hnp; reflexivity. }
    destruct (Hstep v latch1 tr1 eq_refl) as (Hinv1 & Hle1 & Hsame1).
    destruct (IH latch1 (tr0 ++ tr1) Hinv1) as [Hnp' Hrest].
    destruct (Congo.run cs latch1) as [vs latch2 tr2| |] eqn:Hr.
    2:{ split; [discriminate | intros; discriminate]. }
    2:{ exfalso; apply Hnp'; reflexivity. }
    split; [discriminate|]. intros vs' latch' tr Heq.
    injection Heq as <- <- <-.
    destruct (Hrest vs latch2 tr2 eq_refl) as (Hinv2 & Hle2 & Hsame2).
    rewrite app_assoc.
    split; [assumption | split; [lia|]].
    intros Hcomp. destruct (Hsame1 Hcomp) as [-> ->].
    destruct (Hsame2 Hcomp) as [-> ->]. split; reflexivity.
Qed.

Lemma lifetime_keeps_inv (count : Z) (cs : list Congo.call) :
  is_uint count -> Forall Congo.call_ok cs ->
  Congo.lifetime count cs <> Panicked /\
  forall vs latch tr,
    Congo.lifetime count cs = Done vs latch tr -> Spec.latch_inv latch tr.
Proof.
  intros Hc Hcs. unfold Congo.lifetime.
  destruct (latch_inv_new count Hc) as (latch0 & tr0 & -> & Hinv).
  destruct (run_keeps_inv cs Hcs latch0 tr0 Hinv) as [Hnp Hrun].
  cbn [and_then].
  destruct (Congo.run cs latch0) as [vs latch1 tr1| |] eqn:Hr.
  2:{ split; [discriminate | intros; discriminate]. }
  2:{ exfalso; apply Hnp; reflexivity. }
  split; [discriminate|]. intros vs' latch tr Heq. injection Heq as <- <- <-.
  apply (Hrun vs latch1 tr1 eq_refl).
Qed.

(** C3. Along every lifetime of a latch (construction with a [uint]
    count, then any calls with [uint] weights) nothing panics, and in the
    state reached the channel is closed if and only if the counter is 0;
    the whole history holds at most one [close], and exactly one if and
    only if the channel is closed. *)
Theorem signal_fired_iff_zero_and_at_most_once
    (count : Z) (cs : list Congo.call) :
  is_uint count -> Forall Congo.call_ok cs ->
  Congo.lifetime count cs <> Panicked /\
  forall vs latch tr,
    Congo.lifetime count cs = Done vs latch tr ->
    (Congo.completed latch <-> Congo.remainingCount latch = 0) /\
    (fired tr <= 1)%nat /\
    (Congo.completed latch <-> fired tr = 1%nat).
Proof.
  intros Hc Hcs.
  destruct (lifetime_keeps_inv count cs Hc Hcs) as [Hnp Hinv].
  split; [exact Hnp|]. intros vs latch tr Heq.
  destruct (Hinv vs latch tr Heq) as (_ & Hzero & Hfired & Hnot).
  split; [exact Hzero|].
  unfold Congo.completed in *.
  destruct (Congo.countDownCompleteCh latch).
  - assert (Htr : tr = []) by (apply Hnot; discriminate).
    subst tr. cbn. split; [lia|]. split; discriminate.
  - assert (Htr : tr = [EvClose]) by (apply Hfired; reflexivity).
    subst tr. cbn. split; [lia|]. split; reflexivity.
Qed.

Lemma signal_fired_iff_zero_and_at_most_once_witness :
  (Congo.completed (Spec.at_rest 0 ChClosed) <->
   Congo.remainingCount (Spec.at_rest 0 ChClosed) = 0) /\
  (fired [EvClose] <= 1)%nat /\
  (Congo.completed (Spec.at_rest 0 ChClosed) <-> fired [EvClose] = 1%nat).
Proof.
  apply (proj2 (signal_fired_iff_zero_and_at_most_once 2
           [Congo.CallCountDown; Congo.CallCount; Congo.CallWeightedCountDown 5;
            Congo.CallWait; Congo.CallComplete]
           ltac:(uint_range)
           ltac:(calls_ok))
         [Congo.VError Congo.nil; Congo.VUint 1; Congo.VError Congo.nil;
          Congo.VUnit; Congo.VError Congo.ErrCountDownLatchCompleted]
         (Spec.at_rest 0 ChClosed) [EvClose]).
  reflexivity.
Defined.

(** C9. No call raises the counter: whenever a call on a latch at rest
    returns, the counter afterwards is at most the counter before.  And
    once a latch built by [NewCountDownLatch] has its channel closed, its
    counter is 0 and every later run of calls returns with the channel
    closed and the counter 0. *)
Theorem remainingCount_never_rises :
  (forall latch c v latch' tr,
      Congo.idle latch -> Congo.call_ok c ->
      Congo.exec c latch = Done v latch' tr ->
      Congo.remainingCount latch' <= Congo.remainingCount latch) /\
  (forall count cs vs latch tr,
      is_uint count -> Forall Congo.call_ok cs ->
      Congo.lifetime count cs = Done vs latch tr ->
      Congo.completed latch ->
      Congo.remainingCount latch = 0 /\
      forall cs', exists vs' latch',
        Congo.run cs' latch = Done vs' latch' [] /\
        Congo.completed latch' /\ Congo.remainingCount latch' = 0).
Proof.
  split.
  - intros latch c v latch' tr [Hm Hr] Hok Heq.
    destruct (exec_cases c latch Hm Hok)
      as [Hb | [[v0 Hv] | [(_ & w & Hw & Hv) | (_ & Hv)]]];
      rewrite Heq in *; try discriminate; injection Hv as -> -> ->.
    + lia.
    + cbn. rewrite (uint_sub_exact _ w Hr (proj1 Hw) (proj2 Hw)). lia.
    + cbn. apply Hr.
  - intros count cs vs latch tr Hc Hcs Heq Hcomp.
    destruct (lifetime_keeps_inv count cs Hc Hcs) as [_ Hinv].
    destruct (Hinv vs latch tr Heq) as ([Hm _] & Hzero & _).
    pose proof (proj1 Hzero Hcomp) as Hz.
    split; [exact Hz|]. intros cs'.
    destruct (run_completed cs' latch Hm Hcomp) as [vs' Hrun].
    exists vs', latch. repeat split; assumption.
Qed.

Lemma remainingCount_never_rises_witness :
  Congo.remainingCount (Spec.at_rest 3 ChOpen) <=
    Congo.remainingCount (Spec.at_rest 5 ChOpen) /\
  Congo.remainingCount (Spec.at_rest 0 ChClosed) = 0.
Proof.
  destruct remainingCount_never_rises as [Hmono Hstay].
  split.
  - apply (Hmono (Spec.at_rest 5 ChOpen) (Congo.CallWeightedCountDown 2)
             (Congo.VError Congo.nil) (Spec.at_rest 3 ChOpen) []).
    + split; [reflexivity | uint_range].
    + uint_range.
    + reflexivity.
  - apply (Hstay 2 [Congo.CallCountDown; Congo.CallComplete]
             [Congo.VError Congo.nil; Congo.VError Congo.nil]
             (Spec.at_rest 0 ChClosed) [EvClose]).
    + uint_range.
    + calls_ok.
    + reflexivity.
    + reflexivity.
Defined.

(** ** Decrements that add up to the count *)

Lemma exec_WeightedCountDown (w : Z) (latch : Congo.CountDownLatch) :
  Congo.exec (Congo.CallWeightedCountDown w) latch =
  and_then (Congo.WeightedCountDown w latch) (fun e => ret (Congo.VError e)).
Proof. reflexivity. Qed.

Lemma decrements_run (ws : list Z) :
  forall r : Z,
  0 < r -> is_uint r -> Forall is_uint ws -> Spec.total ws = r ->
  Spec.below_remaining ws (Spec.at_rest r ChOpen) ->
  Congo.run (Spec.decrements ws ++ [Congo.CallCount]) (Spec.at_rest r ChOpen) =
  Done (map (fun _ => Congo.VError Congo.nil) ws ++ [Congo.VUint 0])
       (Spec.at_rest 0 ChClosed) [EvClose].
Proof.
  induction ws as [|w ws IH]; intros r Hpos Hr Hws Hsum Hbelow.
  - cbn in Hsum. lia.
  - inversion Hws as [|w0 ws0 Hw Hws']; subst w0 ws0.
    cbn [Spec.decrements map app]. rewrite run_cons, exec_WeightedCountDown.
    rewrite (doCountDown_under_lock w (Spec.at_rest r ChOpen) eq_refl).
    cbn [Spec.at_rest Congo.countDownCompleteCh Congo.remainingCount].
    destruct ws as [|w' ws'].
    + cbn in Hsum. rewrite (proj2 (gtb_false r w)) by lia. reflexivity.
    + cbn [Spec.below_remaining] in Hbelow.
      rewrite (Count_idle (Spec.at_rest r ChOpen) eq_refl) in Hbelow.
      rewrite (doCountDown_under_lock w (Spec.at_rest r ChOpen) eq_refl) in Hbelow.
      cbn [Spec.at_rest Congo.countDownCompleteCh Congo.remainingCount] in Hbelow.
      destruct (r >? w) eqn:Hgt.
      * destruct Hbelow as [Hlt Hbelow].
        cbn [Congo.set_remainingCount Congo.m Congo.countDownCompleteCh] in *.
        rewrite (uint_sub_exact r w Hr (proj1 Hw) Hlt) in *.
        cbn [and_then ret].
        change (Congo.set_remainingCount (r - w) (Spec.at_rest r ChOpen))
          with (Spec.at_rest (r - w) ChOpen) in *.
        change (map Congo.CallWeightedCountDown (w' :: ws'))
          with (Spec.decrements (w' :: ws')).
        assert (Hsum' : Spec.total (w' :: ws') = r - w).
        { change (Spec.total (w :: w' :: ws')) with (w + Spec.total (w' :: ws')) in Hsum.
          lia. }
        rewrite (IH (r - w)); [reflexivity | lia | | assumption | assumption | exact Hbelow].
        destruct Hr, Hw. split; lia.
      * apply gtb_false in Hgt. destruct Hbelow as [Hlt _]. lia.
Qed.

(** C7. From [NewCountDownLatch(n)], [n > 0], let [ws] be [uint] weights
    that add up to exactly [n], each but the last strictly below what
    [Count()] reports when its call is made.  Then every
    [WeightedCountDown] of the sequence returns [nil], a [Count()] after
    the last one returns 0, and the latch is complete: the channel is
    closed, by the one [close] of the last call. *)
Theorem exact_decrements_complete (n : Z) (ws : list Z) :
  0 < n -> is_uint n -> Forall is_uint ws ->
  Spec.total ws = n -> Spec.each_but_last_below n ws ->
  Congo.lifetime n (Spec.decrements ws ++ [Congo.CallCount]) =
  Done (map (fun _ => Congo.VError Congo.nil) ws ++ [Congo.VUint 0])
       (Spec.at_rest 0 ChClosed) [EvClose].
Proof.
  intros Hpos Hn Hws Hsum Hbelow.
  unfold Congo.lifetime, Spec.each_but_last_below in *.
  rewrite NewCountDownLatch_nonzero in * by lia.
  cbn [and_then].
  rewrite (decrements_run ws n Hpos Hn Hws Hsum Hbelow). reflexivity.
Qed.

Lemma exact_decrements_complete_witness :
  Congo.lifetime 6 (Spec.decrements [1; 0; 3; 2] ++ [Congo.CallCount]) =
  Done (map (fun _ => Congo.VError Congo.nil) [1; 0; 3; 2] ++ [Congo.VUint 0])
       (Spec.at_rest 0 ChClosed) [EvClose].
Proof.
  apply (exact_decrements_complete 6 [1; 0; 3; 2]).
  - lia.
  - uint_range.
  - repeat (apply Forall_cons; [uint_range|]). apply Forall_nil.
  - reflexivity.
  - vm_compute. repeat split.
Defined.

(** ** The two packages agree *)

Lemma New_agrees (count : Z) :
  Equiv.congo_outcome (fun u : unit => u) (Latch.New count) =
  Congo.NewCountDownLatch count.
Proof.
  unfold Latch.New, Congo.NewCountDownLatch; cbn.
  destruct (count =? 0); reflexivity.
Qed.

Lemma congo_value_injective (v v' : Latch.value) :
  Equiv.congo_value v = Equiv.congo_value v' -> v = v'.
Proof.
  destruct v as [n|e| |b], v' as [n'|e'| |b']; cbn; intros H;
    try discriminate; try reflexivity; try (injection H as ->; reflexivity).
  destruct e, e'; cbn in H; try discriminate; reflexivity.
Qed.

Lemma congo_latch_injective (latch latch' : Latch.CountDownLatch) :
  Equiv.congo_latch latch = Equiv.congo_latch latch' -> latch = latch'.
Proof.
  destruct latch, latch'; unfold Equiv.congo_latch; cbn.
  intros H; injection H as -> -> ->; reflexivity.
Qed.

Lemma exec_agrees (c : Latch.call) (latch : Latch.CountDownLatch) :
  Equiv.congo_outcome Equiv.congo_value (Latch.exec c latch) =
  Congo.exec (Equiv.congo_call c) (Equiv.congo_latch latch).
Proof.
  destruct latch as [mu r ch].
  destruct c as [| |weight| |timeout elapsed pick];
    cbn [Latch.exec Congo.exec Equiv.congo_call];
    latch_unfold; congo_unfold; unfold Equiv.congo_latch; cbn.
  - destruct mu; reflexivity.
  - destruct mu, ch; cbn; try reflexivity. destruct (r >? 1); reflexivity.
  - destruct mu, ch; cbn; try reflexivity. destruct (r >? weight); reflexivity.
  - destruct ch; reflexivity.
  - destruct (select2 (recv_ready ch) (timer_fired timeout elapsed) pick)
      as [[|]|]; reflexivity.
Qed.

Lemma latch_run_cons (c : Latch.call) (cs : list Latch.call)
    (latch : Latch.CountDownLatch) :
  Latch.run (c :: cs) latch =
  match Latch.exec c latch with
  | Done v latch1 tr1 =>
      match Latch.run cs latch1 with
      | Done vs latch2 tr2 => Done (v :: vs) latch2 (tr1 ++ tr2)
      | Blocked => Blocked
      | Panicked => Panicked
      end
  | Blocked => Blocked
  | Panicked => Panicked
  end.
Proof.
  cbn [Latch.run]. unfold bind, and_then, ret.
  destruct (Latch.exec c latch) as [v latch1 tr1| |]; try reflexivity.
  destruct (Latch.run cs latch1) as [vs latch2 tr2| |]; try reflexivity.
  rewrite app_nil_r. reflexivity.
Qed.

Lemma run_agrees (cs : list Latch.call) :
  forall latch : Latch.CountDownLatch,
  Equiv.congo_outcome (map Equiv.congo_value) (Latch.run cs latch) =
  Congo.run (map Equiv.congo_call cs) (Equiv.congo_latch latch).
Proof.
  induction cs as [|c cs IH]; intros latch.
  - reflexivity.
  - cbn [map]. rewrite latch_run_cons, run_cons, <- exec_agrees.
    destruct (Latch.exec c latch) as [v latch1 tr1| |]; cbn; try reflexivity.
    rewrite <- IH.
    destruct (Latch.run cs latch1) as [vs latch2 tr2| |]; reflexivity.
Qed.

(** C10. Package latch and package congo agree on their common API: for
    every initial count and every sequence of [Count], [CountDown],
    [WeightedCountDown], [Wait] and [WaitTimeout] calls, the run of
    package latch, read in the vocabulary of package congo, is the run of
    package congo: the same values and errors call by call, the same
    final counter, mutex and channel, the same [close] events, and the
    same calls that block. *)
Theorem latch_and_congo_agree (count : Z) (cs : list Latch.call) :
  Equiv.congo_outcome (map Equiv.congo_value) (Latch.lifetime count cs) =
  Congo.lifetime count (map Equiv.congo_call cs).
Proof.
  unfold Latch.lifetime, Congo.lifetime.
  rewrite <- New_agrees.
  destruct (Latch.New count) as [u latch0 tr0| |]; cbn; try reflexivity.
  rewrite <- run_agrees.
  destruct (Latch.run cs latch0) as [vs latch1 tr1| |]; reflexivity.
Qed.

(** * Further properties of the two packages *)

(** ** Decrements as arithmetic on a balance *)

Lemma total_cons (w : Z) (ws : list Z) :
  Spec.total (w :: ws) = w + Spec.total ws.
Proof. reflexivity. Qed.

Lemma total_nonneg (ws : list Z) :
  Forall is_uint ws -> 0 <= Spec.total ws.
Proof.
  induction 1 as [|w ws [Hw _] _ IH]; [cbn; lia|].
  rewrite total_cons. lia.
Qed.

Lemma latch_of_balance_spent (b : Z) :
  b <= 0 -> Usage.latch_of_balance b = Spec.at_rest 0 ChClosed.
Proof.
  intros Hb. unfold Usage.latch_of_balance.
  rewrite (proj2 (Z.leb_le b 0) Hb), Z.max_l by lia. reflexivity.
Qed.

Lemma latch_of_balance_left (b : Z) :
  0 < b -> Usage.latch_of_balance b = Spec.at_rest b ChOpen.
Proof.
  intros Hb. unfold Usage.latch_of_balance.
  rewrite (proj2 (Z.leb_gt b 0) Hb), Z.max_r by lia. reflexivity.
Qed.

Lemma latch_of_balance_new (n : Z) :
  is_uint n ->
  Congo.NewCountDownLatch n =
  Done tt (Usage.latch_of_balance n) (if n <=? 0 then [EvClose] else []).
Proof.
  intros [Hn _]. destruct (Z.eq_dec n 0) as [->|Hnz].
  - reflexivity.
  - rewrite NewCountDownLatch_nonzero, latch_of_balance_left by lia.
    rewrite (proj2 (Z.leb_gt n 0)) by lia. reflexivity.
Qed.

(** One decrement, on the balance. *)
Lemma decrement_on_balance (b w : Z) :
  b < uint_modulus -> 0 <= w ->
  Congo.exec (Congo.CallWeightedCountDown w) (Usage.latch_of_balance b) =
  Done (Congo.VError (if b <=? 0
                      then Congo.ErrCountDownLatchCompleted
                      else Congo.nil))
       (Usage.latch_of_balance (b - w))
       (Usage.closes_between b (b - w)).
Proof.
  intros Hb Hw. rewrite exec_WeightedCountDown. unfold Usage.closes_between.
  destruct (Z.leb_spec b 0) as [Hspent|Hleft].
  - rewrite (latch_of_balance_spent b Hspent).
    rewrite (latch_of_balance_spent (b - w)) by lia.
    rewrite (proj2 (Z.ltb_ge 0 b) Hspent). reflexivity.
  - rewrite (latch_of_balance_left b Hleft).
    rewrite (doCountDown_under_lock w (Spec.at_rest b ChOpen) eq_refl).
    cbn [Spec.at_rest Congo.countDownCompleteCh Congo.remainingCount].
    rewrite (proj2 (Z.ltb_lt 0 b) Hleft).
    destruct (b >? w) eqn:Hgt.
    + apply gtb_true in Hgt.
      rewrite (uint_sub_exact b w) by (unfold is_uint; lia).
      rewrite (latch_of_balance_left (b - w)) by lia.
      rewrite (proj2 (Z.leb_gt (b - w) 0)) by lia. reflexivity.
    + apply gtb_false in Hgt.
      rewrite (latch_of_balance_spent (b - w)) by lia.
      rewrite (proj2 (Z.leb_le (b - w) 0)) by lia. reflexivity.
Qed.

Lemma closes_between_trans (b w t : Z) :
  0 <= w -> 0 <= t ->
  Usage.closes_between b (b - w) ++ Usage.closes_between (b - w) (b - w - t) =
  Usage.closes_between b (b - (w + t)).
Proof.
  intros Hw Ht. unfold Usage.closes_between. zbool.
Qed.

Lemma decrements_on_balance (ws : list Z) :
  forall b : Z,
  b < uint_modulus -> Forall is_uint ws ->
  Congo.run (Spec.decrements ws) (Usage.latch_of_balance b) =
  Done (Usage.decrement_results b ws)
       (Usage.latch_of_balance (b - Spec.total ws))
       (Usage.closes_between b (b - Spec.total ws)).
Proof.
  induction ws as [|w ws IH]; intros b Hb Hws.
  - cbn [Spec.decrements map Congo.run Spec.total fold_right
         Usage.decrement_results].
    rewrite Z.sub_0_r. unfold ret, Usage.closes_between.
    replace ((0 <? b) && (b <=? 0)) with false; [reflexivity|].
    zbool.
  - inversion Hws as [|w0 ws0 Hw Hws']; subst w0 ws0.
    pose proof (total_nonneg ws Hws') as Ht.
    cbn [Spec.decrements map]. rewrite run_cons.
    rewrite (decrement_on_balance b w Hb (proj1 Hw)).
    change (map Congo.CallWeightedCountDown ws) with (Spec.decrements ws).
    rewrite (IH (b - w)) by (assumption || (destruct Hw; lia)).
    rewrite (closes_between_trans b w _ (proj1 Hw) Ht).
    rewrite total_cons, Z.sub_add_distr. reflexivity.
Qed.

Lemma lifetime_decrements (n : Z) (ws : list Z) :
  is_uint n -> Forall is_uint ws ->
  Congo.lifetime n (Spec.decrements ws) =
  Done (Usage.decrement_results n ws)
       (Spec.at_rest (Z.max 0 (n - Spec.total ws))
          (if n <=? Spec.total ws then ChClosed else ChOpen))
       (if n <=? Spec.total ws then [EvClose] else []).
Proof.
  intros Hn Hws. pose proof (total_nonneg ws Hws) as Ht.
  unfold Congo.lifetime.
  rewrite (latch_of_balance_new n Hn). cbn [and_then].
  rewrite (decrements_on_balance ws n (proj2 Hn) Hws).
  unfold Usage.latch_of_balance, Usage.closes_between.
  destruct Hn as [Hn0 _]. zbool.
Qed.

Lemma decrement_results_length (ws : list Z) :
  forall b, length (Usage.decrement_results b ws) = length ws.
Proof.
  induction ws as [|w ws IH]; intros b; cbn; [reflexivity|].
  rewrite IH. reflexivity.
Qed.

Lemma decrement_results_nth (ws : list Z) :
  forall (b : Z) (i : nat),
  (i < length ws)%nat ->
  nth_error (Usage.decrement_results b ws) i =
  Some (Congo.VError (if b <=? Spec.total (firstn i ws)
                      then Congo.ErrCountDownLatchCompleted
                      else Congo.nil)).
Proof.
  induction ws as [|w ws IH]; intros b i Hi; cbn in Hi; [lia|].
  destruct i as [|i].
  - reflexivity.
  - cbn [Usage.decrement_results nth_error firstn].
    rewrite (IH (b - w) i) by lia. rewrite total_cons.
    replace (b - w <=? Spec.total (firstn i ws))
      with (b <=? w + Spec.total (firstn i ws)); [reflexivity|].
    zbool.
Qed.

(** X1. A latch built with count [n] and decremented by the weights [ws]
    behaves like the integer [n - sum]: all calls return, the call at
    position [i] returns the error exactly when the weights before it
    already add up to [n] or more, the counter ends at [max 0 (n - sum)],
    and the channel is closed, once, exactly when [n <= sum]. *)
Theorem decrements_saturate (n : Z) (ws : list Z) :
  is_uint n -> Forall is_uint ws ->
  exists vs,
    Congo.lifetime n (Spec.decrements ws) =
    Done vs
      (Spec.at_rest (Z.max 0 (n - Spec.total ws))
         (if n <=? Spec.total ws then ChClosed else ChOpen))
      (if n <=? Spec.total ws then [EvClose] else []) /\
    length vs = length ws /\
    forall i : nat,
      (i < length ws)%nat ->
      nth_error vs i =
      Some (Congo.VError (if n <=? Spec.total (firstn i ws)
                          then Congo.ErrCountDownLatchCompleted
                          else Congo.nil)).
Proof.
  intros Hn Hws. exists (Usage.decrement_results n ws).
  split; [apply lifetime_decrements; assumption|].
  split; [apply decrement_results_length|].
  intros i Hi. apply decrement_results_nth. exact Hi.
Qed.

Lemma decrements_saturate_witness :
  exists vs,
    Congo.lifetime 5 (Spec.decrements [2; 4; 0]) =
    Done vs
      (Spec.at_rest (Z.max 0 (5 - Spec.total [2; 4; 0]))
         (if 5 <=? Spec.total [2; 4; 0] then ChClosed else ChOpen))
      (if 5 <=? Spec.total [2; 4; 0] then [EvClose] else []) /\
    length vs = length [2; 4; 0] /\
    forall i : nat,
      (i < length [2; 4; 0])%nat ->
      nth_error vs i =
      Some (Congo.VError (if 5 <=? Spec.total (firstn i [2; 4; 0])
                          then Congo.ErrCountDownLatchCompleted
                          else Congo.nil)).
Proof.
  apply (decrements_saturate 5 [2; 4; 0]).
  - uint_range.
  - repeat (apply Forall_cons; [uint_range|]). apply Forall_nil.
Defined.

(** ** The order of decrements *)

Lemma total_Permutation (ws ws' : list Z) :
  Permutation ws ws' -> Spec.total ws = Spec.total ws'.
Proof.
  induction 1 as [|w ws ws' _ IH|w w' ws|ws ws' ws'' _ IH1 _ IH2].
  - reflexivity.
  - rewrite !total_cons, IH. reflexivity.
  - rewrite !total_cons. lia.
  - congruence.
Qed.

(** X2. The final latch does not depend on the order in which the
    decrements are made: two runs whose weights are permutations of each
    other end with the same counter, the same channel state and the same
    [close] history. *)
Theorem decrements_commute (n : Z) (ws ws' : list Z) :
  is_uint n -> Forall is_uint ws -> Permutation ws ws' ->
  exists vs vs' latch tr,
    Congo.lifetime n (Spec.decrements ws) = Done vs latch tr /\
    Congo.lifetime n (Spec.decrements ws') = Done vs' latch tr.
Proof.
  intros Hn Hws Hperm.
  assert (Hws' : Forall is_uint ws') by (apply (Permutation_Forall Hperm Hws)).
  rewrite (lifetime_decrements n ws Hn Hws).
  rewrite (lifetime_decrements n ws' Hn Hws').
  rewrite <- (total_Permutation ws ws' Hperm).
  eexists _, _, _, _. split; reflexivity.
Qed.

Lemma decrements_commute_witness :
  exists vs vs' latch tr,
    Congo.lifetime 5 (Spec.decrements [4; 2; 1]) = Done vs latch tr /\
    Congo.lifetime 5 (Spec.decrements [2; 4; 1]) = Done vs' latch tr.
Proof.
  apply (decrements_commute 5 [4; 2; 1] [2; 4; 1]).
  - uint_range.
  - repeat (apply Forall_cons; [uint_range|]). apply Forall_nil.
  - apply perm_swap.
Defined.

Lemma decrement_results_all_nil (ws : list Z) :
  Forall is_uint ws -> Forall (fun w => 0 < w) ws ->
  Usage.decrement_results (Spec.total ws) ws =
  map (fun _ => Congo.VError Congo.nil) ws.
Proof.
  intros Hws Hpos. induction Hpos as [|w ws Hw Hpos IH]; [reflexivity|].
  inversion Hws as [|w0 ws0 _ Hws']; subst w0 ws0.
  pose proof (total_nonneg ws Hws') as Ht.
  cbn [Usage.decrement_results map]. rewrite total_cons.
  rewrite (proj2 (Z.leb_gt (w + Spec.total ws) 0)) by lia.
  replace (w + Spec.total ws - w) with (Spec.total ws) by lia.
  rewrite (IH Hws'). reflexivity.
Qed.

(** X3. When the weights are all positive and add up to the count, every
    decrement returns [nil] whatever the order of the calls, and the
    latch ends complete with counter 0 after exactly one [close]. *)
Theorem positive_decrements_succeed_in_any_order (n : Z) (ws ws' : list Z) :
  is_uint n -> Forall is_uint ws -> Forall (fun w => 0 < w) ws ->
  Spec.total ws = n -> Permutation ws ws' ->
  Congo.lifetime n (Spec.decrements ws') =
  Done (map (fun _ => Congo.VError Congo.nil) ws')
       (Spec.at_rest 0 ChClosed) [EvClose].
Proof.
  intros Hn Hws Hpos Hsum Hperm.
  assert (Hws' : Forall is_uint ws') by (apply (Permutation_Forall Hperm Hws)).
  assert (Hpos' : Forall (fun w => 0 < w) ws')
    by (apply (Permutation_Forall Hperm Hpos)).
  assert (Hsum' : Spec.total ws' = n)
    by (rewrite <- (total_Permutation ws ws' Hperm); exact Hsum).
  rewrite (lifetime_decrements n ws' Hn Hws'). rewrite Hsum'.
  rewrite <- Hsum' at 1. rewrite (decrement_results_all_nil ws' Hws' Hpos').
  rewrite Z.leb_refl, Z.sub_diag. reflexivity.
Qed.

Lemma positive_decrements_succeed_in_any_order_witness :
  Congo.lifetime 6 (Spec.decrements [3; 1; 2]) =
  Done (map (fun _ => Congo.VError Congo.nil) [3; 1; 2])
       (Spec.at_rest 0 ChClosed) [EvClose].
Proof.
  apply (positive_decrements_succeed_in_any_order 6 [1; 2; 3] [3; 1; 2]).
  - uint_range.
  - repeat (apply Forall_cons; [uint_range|]). apply Forall_nil.
  - repeat (apply Forall_cons; [lia|]). apply Forall_nil.
  - reflexivity.
  - apply Permutation_sym. apply (Permutation_cons_app [1; 2] [] 3).
    apply Permutation_refl.
Defined.

(** ** Counting down one by one *)

Lemma run_CountDown_repeat (k : nat) (latch : Congo.CountDownLatch) :
  Congo.run (repeat Congo.CallCountDown k) latch =
  Congo.run (Spec.decrements (repeat 1 k)) latch.
Proof.
  revert latch. induction k as [|k IH]; intros latch; [reflexivity|].
  cbn [repeat Spec.decrements map]. rewrite !run_cons.
  change (Congo.exec Congo.CallCountDown latch)
    with (Congo.exec (Congo.CallWeightedCountDown 1) latch).
  destruct (Congo.exec (Congo.CallWeightedCountDown 1) latch)
    as [v latch1 tr1| |]; try reflexivity.
  change (map Congo.CallWeightedCountDown (repeat 1 k))
    with (Spec.decrements (repeat 1 k)).
  rewrite IH. reflexivity.
Qed.

Lemma total_repeat_1 (k : nat) : Spec.total (repeat 1 k) = Z.of_nat k.
Proof.
  induction k as [|k IH]; [reflexivity|].
  cbn [repeat]. rewrite total_cons, IH. lia.
Qed.

Lemma firstn_repeat_1 (k i : nat) :
  (i <= k)%nat -> firstn i (repeat 1 k) = repeat 1 i.
Proof.
  revert i. induction k as [|k IH]; intros [|i] Hi; cbn; try reflexivity; try lia.
  rewrite IH by lia. reflexivity.
Qed.

Lemma Forall_is_uint_repeat_1 (k : nat) : Forall is_uint (repeat 1 k).
Proof.
  induction k as [|k IH]; [apply Forall_nil|].
  apply Forall_cons; [uint_range | exact IH].
Qed.

(** X4. On a latch built with count [n], of [k] successive [CountDown()]
    calls exactly the first [n] return [nil] and all later ones return the
    error; afterwards the counter is [max 0 (n - k)] and the channel is
    closed exactly when [k >= n]. *)
Theorem CountDown_succeeds_exactly_n_times (n : Z) (k : nat) :
  is_uint n ->
  exists vs,
    Congo.lifetime n (repeat Congo.CallCountDown k) =
    Done vs
      (Spec.at_rest (Z.max 0 (n - Z.of_nat k))
         (if n <=? Z.of_nat k then ChClosed else ChOpen))
      (if n <=? Z.of_nat k then [EvClose] else []) /\
    length vs = k /\
    forall i : nat,
      (i < k)%nat ->
      nth_error vs i =
      Some (Congo.VError (if n <=? Z.of_nat i
                          then Congo.ErrCountDownLatchCompleted
                          else Congo.nil)).
Proof.
  intros Hn. exists (Usage.decrement_results n (repeat 1 k)).
  split; [|split].
  - unfold Congo.lifetime.
    destruct (Congo.NewCountDownLatch n) as [u latch0 tr0| |] eqn:Hnew;
      cbn [and_then].
    + rewrite run_CountDown_repeat.
      pose proof (lifetime_decrements n (repeat 1 k) Hn
                    (Forall_is_uint_repeat_1 k)) as Hrun.
      unfold Congo.lifetime in Hrun. rewrite Hnew in Hrun.
      cbn [and_then] in Hrun. rewrite Hrun, total_repeat_1. reflexivity.
    + rewrite (latch_of_balance_new n Hn) in Hnew. discriminate Hnew.
    + rewrite (latch_of_balance_new n Hn) in Hnew. discriminate Hnew.
  - rewrite decrement_results_length. apply repeat_length.
  - intros i Hi. rewrite decrement_results_nth by (rewrite repeat_length; exact Hi).
    rewrite firstn_repeat_1 by lia. rewrite total_repeat_1. reflexivity.
Qed.

Lemma CountDown_succeeds_exactly_n_times_witness :
  exists vs,
    Congo.lifetime 3 (repeat Congo.CallCountDown 5) =
    Done vs
      (Spec.at_rest (Z.max 0 (3 - Z.of_nat 5))
         (if 3 <=? Z.of_nat 5 then ChClosed else ChOpen))
      (if 3 <=? Z.of_nat 5 then [EvClose] else []) /\
    length vs = 5%nat /\
    forall i : nat,
      (i < 5)%nat ->
      nth_error vs i =
      Some (Congo.VError (if 3 <=? Z.of_nat i
                          then Congo.ErrCountDownLatchCompleted
                          else Congo.nil)).
Proof.
  apply (CountDown_succeeds_exactly_n_times 3 5). uint_range.
Defined.

(** ** Waiting *)

Lemma latch_at_rest (latch : Congo.CountDownLatch) :
  Congo.m latch = Unlocked ->
  latch = Spec.at_rest (Congo.remainingCount latch)
            (Congo.countDownCompleteCh latch).
Proof. destruct latch as [mu r ch]; cbn; intros ->; reflexivity. Qed.

(** X5. In every state a lifetime reaches: a [Wait()] that returns, or a
    [WaitTimeout] that returns [true], has changed nothing and a
    [Count()] made then returns 0; a [WaitTimeout(d)] that returns
    [false] has seen its timer fire; and while the counter is positive
    [Wait()] cannot return and [WaitTimeout(d)] returns [false] once the
    timer fires and not before. *)
Theorem waits_report_completion
    (count : Z) (cs : list Congo.call) (vs : list Congo.value)
    (latch : Congo.CountDownLatch) (tr : list event) :
  is_uint count -> Forall Congo.call_ok cs ->
  Congo.lifetime count cs = Done vs latch tr ->
  (forall u latch' tr',
      Congo.Wait latch = Done u latch' tr' ->
      latch' = latch /\ tr' = [] /\ Congo.Count latch = Done 0 latch []) /\
  (forall d elapsed pick b latch' tr',
      Congo.WaitTimeout d elapsed pick latch = Done b latch' tr' ->
      latch' = latch /\ tr' = [] /\
      (b = true -> Congo.Count latch = Done 0 latch []) /\
      (b = false -> d <= elapsed)) /\
  (0 < Congo.remainingCount latch ->
   Congo.Wait latch = Blocked /\
   forall d elapsed pick,
     Congo.WaitTimeout d elapsed pick latch =
     if timer_fired d elapsed then Done false latch [] else Blocked).
Proof.
  intros Hc Hcs Heq.
  destruct (lifetime_keeps_inv count cs Hc Hcs) as [_ Hinv].
  destruct (Hinv vs latch tr Heq) as ([Hm _] & Hzero & _).
  pose proof (Count_idle latch Hm) as HCount.
  unfold Congo.completed in Hzero.
  unfold Congo.Wait, Congo.WaitTimeout.
  destruct (Congo.countDownCompleteCh latch) eqn:Hch; cbn [recv_ready].
  - assert (Hnz : Congo.remainingCount latch <> 0)
      by (intros H0; apply Hzero in H0; discriminate H0).
    repeat split; try discriminate.
    + destruct (timer_fired d elapsed); cbn in H; congruence.
    + destruct (timer_fired d elapsed); cbn in H; congruence.
    + intros ->. destruct (timer_fired d elapsed); cbn in H; congruence.
    + intros ->. unfold timer_fired in H.
      destruct (Z.leb_spec d elapsed); [assumption | discriminate H].
    + intros d elapsed pick. destruct (timer_fired d elapsed); reflexivity.
  - assert (Hz : Congo.remainingCount latch = 0) by (apply Hzero; reflexivity).
    rewrite Hz in HCount.
    split; [|split].
    + intros u latch' tr' H. injection H as _ <- <-. repeat split. exact HCount.
    + intros d elapsed pick b latch' tr' H.
      unfold timer_fired in H.
      destruct (Z.leb_spec d elapsed) as [Hle|Hgt]; cbn in H.
      * destruct pick; injection H as <- <- <-; repeat split;
          try (intros _; assumption); discriminate.
      * injection H as <- <- <-. repeat split;
          try (intros _; assumption); discriminate.
    + lia.
Qed.

Lemma waits_report_completion_witness :
  Congo.Count (Spec.at_rest 0 ChClosed) = Done 0 (Spec.at_rest 0 ChClosed) [].
Proof.
  destruct (waits_report_completion 1 [Congo.CallCountDown]
              [Congo.VError Congo.nil] (Spec.at_rest 0 ChClosed) [EvClose]
              ltac:(uint_range) ltac:(calls_ok) eq_refl) as [HWait _].
  apply (HWait tt (Spec.at_rest 0 ChClosed) []). reflexivity.
Defined.

(** ** The mutex *)

(** X6. The four methods that lock never block on a free mutex, never
    panic, and hand the mutex back free, whatever the counter and the
    channel are; on a held mutex they cannot proceed. *)
Theorem locking_calls_release_the_mutex
    (latch : Congo.CountDownLatch) (c : Congo.call) :
  Usage.takes_lock c = true ->
  (Congo.m latch = Unlocked ->
   exists v latch' tr,
     Congo.exec c latch = Done v latch' tr /\ Congo.m latch' = Unlocked) /\
  (Congo.m latch = Locked -> Congo.exec c latch = Blocked).
Proof.
  intros Hlock. destruct latch as [mu r ch]; cbn [Congo.m].
  split; intros ->.
  - destruct c as [| |w| | |]; try discriminate Hlock;
      cbn [Congo.exec]; unfold bind.
    + rewrite Count_idle by reflexivity. eexists _, _, _. split; reflexivity.
    + rewrite CountDown_is_weight_1, doCountDown_under_lock by reflexivity.
      cbn. destruct ch; [destruct (r >? 1)|];
        eexists _, _, _; split; reflexivity.
    + rewrite doCountDown_under_lock by reflexivity.
      cbn. destruct ch; [destruct (r >? w)|];
        eexists _, _, _; split; reflexivity.
    + rewrite Complete_is_weight_remaining, doCountDown_under_lock by reflexivity.
      cbn. destruct ch; [destruct (r >? r)|];
        eexists _, _, _; split; reflexivity.
  - destruct c; try discriminate Hlock; reflexivity.
Qed.

Lemma locking_calls_release_the_mutex_witness :
  (exists v latch' tr,
     Congo.exec Congo.CallComplete (Spec.at_rest 7 ChOpen) = Done v latch' tr /\
     Congo.m latch' = Unlocked) /\
  Congo.exec Congo.CallCount (Congo.set_m Locked (Spec.at_rest 7 ChOpen)) = Blocked.
Proof.
  split.
  - apply (locking_calls_release_the_mutex (Spec.at_rest 7 ChOpen) Congo.CallComplete);
      reflexivity.
  - apply (locking_calls_release_the_mutex
             (Congo.set_m Locked (Spec.at_rest 7 ChOpen)) Congo.CallCount);
      reflexivity.
Defined.

(** X7. [Wait] and [WaitTimeout] do not go through the mutex: with the
    mutex in any state they return or block exactly as with the mutex
    free, and when they return the latch is untouched and nothing was
    closed. *)
Theorem waits_bypass_the_mutex
    (latch : Congo.CountDownLatch) (mu : Mutex) (c : Congo.call) :
  Usage.takes_lock c = false ->
  (Congo.exec c latch = Blocked /\
   Congo.exec c (Congo.set_m mu latch) = Blocked) \/
  (exists v,
     Congo.exec c latch = Done v latch [] /\
     Congo.exec c (Congo.set_m mu latch) = Done v (Congo.set_m mu latch) []).
Proof.
  intros Hlock. destruct latch as [mu0 r ch].
  destruct c as [| | | | |timeout elapsed pick]; try discriminate Hlock;
    cbn [Congo.exec]; unfold bind, Congo.Wait, Congo.WaitTimeout, Congo.set_m;
    cbn [Congo.countDownCompleteCh Congo.m Congo.remainingCount].
  - destruct ch; cbn; [left; split; reflexivity|].
    right. eexists. split; reflexivity.
  - destruct (select2 (recv_ready ch) (timer_fired timeout elapsed) pick)
      as [[|]|]; cbn; [right | right | left; split; reflexivity];
      eexists; split; reflexivity.
Qed.

Lemma waits_bypass_the_mutex_witness :
  exists v,
    Congo.exec Congo.CallWait (Spec.at_rest 0 ChClosed) =
      Done v (Spec.at_rest 0 ChClosed) [] /\
    Congo.exec Congo.CallWait (Congo.set_m Locked (Spec.at_rest 0 ChClosed)) =
      Done v (Congo.set_m Locked (Spec.at_rest 0 ChClosed)) [].
Proof.
  destruct (waits_bypass_the_mutex (Spec.at_rest 0 ChClosed) Locked
              Congo.CallWait eq_refl) as [[Hb _]|Hd].
  - discriminate Hb.
  - exact Hd.
Defined.

(** ** Observers *)

Lemma exec_observer (c : Congo.call) (latch : Congo.CountDownLatch)
    (v : Congo.value) (latch' : Congo.CountDownLatch) (tr : list event) :
  Usage.mutates c = false ->
  Congo.exec c latch = Done v latch' tr ->
  latch' = latch /\ tr = [].
Proof.
  intros Hobs. destruct latch as [mu r ch].
  destruct c as [| | | | |timeout elapsed pick]; try discriminate Hobs;
    cbn [Congo.exec]; unfold bind.
  - destruct mu; [|discriminate].
    rewrite Count_idle by reflexivity. cbn. intros H.
    injection H as _ <- <-. split; reflexivity.
  - unfold Congo.Wait; cbn. destruct ch; cbn; [discriminate|].
    intros H. injection H as _ <- <-. split; reflexivity.
  - unfold Congo.WaitTimeout; cbn.
    destruct (select2 (recv_ready ch) (timer_fired timeout elapsed) pick)
      as [[|]|]; cbn; try discriminate;
      intros H; injection H as _ <- <-; split; reflexivity.
Qed.

(** X8. [Count], [Wait] and [WaitTimeout] are pure observers: dropping
    them from a run that returns leaves a run that returns too, with the
    same results for the remaining calls, the same final latch and the
    same [close] history. *)
Theorem observers_are_transparent (cs : list Congo.call) :
  forall (latch : Congo.CountDownLatch) (vs : list Congo.value)
         (latch' : Congo.CountDownLatch) (tr : list event),
  Congo.run cs latch = Done vs latch' tr ->
  Congo.run (Usage.mutators cs) latch =
  Done (Usage.mutator_values cs vs) latch' tr.
Proof.
  induction cs as [|c cs IH]; intros latch vs latch' tr Hrun.
  - injection Hrun as <- <- <-. reflexivity.
  - rewrite run_cons in Hrun.
    destruct (Congo.exec c latch) as [v latch1 tr1| |] eqn:He;
      try discriminate Hrun.
    destruct (Congo.run cs latch1) as [vs1 latch2 tr2| |] eqn:Hr;
      try discriminate Hrun.
    injection Hrun as <- <- <-.
    pose proof (IH latch1 vs1 latch2 tr2 Hr) as IH'.
    unfold Usage.mutators, Usage.mutator_values in *.
    cbn [filter combine fst].
    destruct (Usage.mutates c) eqn:Hm.
    + cbn [map snd]. rewrite run_cons, He, IH'. reflexivity.
    + destruct (exec_observer c latch v latch1 tr1 Hm He) as [-> ->].
      exact IH'.
Qed.

Lemma observers_are_transparent_witness :
  Congo.run (Usage.mutators
               [Congo.CallCount; Congo.CallCountDown;
                Congo.CallWaitTimeout 5 9 FirstCase; Congo.CallComplete;
                Congo.CallWait])
            (Spec.at_rest 2 ChOpen) =
  Done [Congo.VError Congo.nil; Congo.VError Congo.nil]
       (Spec.at_rest 0 ChClosed) [EvClose].
Proof.
  apply (observers_are_transparent
           [Congo.CallCount; Congo.CallCountDown;
            Congo.CallWaitTimeout 5 9 FirstCase; Congo.CallComplete;
            Congo.CallWait]
           (Spec.at_rest 2 ChOpen)
           [Congo.VUint 2; Congo.VError Congo.nil; Congo.VBool false;
            Congo.VError Congo.nil; Congo.VUnit]).
  reflexivity.
Defined.

Lemma run_of_observers (cs : list Congo.call) :
  forall (latch : Congo.CountDownLatch) (vs : list Congo.value)
         (latch' : Congo.CountDownLatch) (tr : list event),
  Usage.mutators cs = [] ->
  Congo.run cs latch = Done vs latch' tr ->
  latch' = latch /\ tr = [].
Proof.
  induction cs as [|c cs IH]; intros latch vs latch' tr Hobs Hrun.
  - injection Hrun as _ <- <-. split; reflexivity.
  - unfold Usage.mutators in Hobs. cbn [filter] in Hobs.
    destruct (Usage.mutates c) eqn:Hm; [discriminate Hobs|].
    rewrite run_cons in Hrun.
    destruct (Congo.exec c latch) as [v latch1 tr1| |] eqn:He;
      try discriminate Hrun.
    destruct (Congo.run cs latch1) as [vs1 latch2 tr2| |] eqn:Hr;
      try discriminate Hrun.
    injection Hrun as _ <- <-.
    destruct (exec_observer c latch v latch1 tr1 Hm He) as [-> ->].
    apply (IH latch vs1 latch2 tr2 Hobs Hr).
Qed.

(** X9. At every point of a lifetime [Count()] returns, without changing
    anything, a value between 0 and the count the latch was built with;
    and it returns that very count as long as no decrement and no
    [Complete] has been called. *)
Theorem Count_between_zero_and_initial
    (count : Z) (cs : list Congo.call) (vs : list Congo.value)
    (latch : Congo.CountDownLatch) (tr : list event) :
  is_uint count -> Forall Congo.call_ok cs ->
  Congo.lifetime count cs = Done vs latch tr ->
  exists r,
    Congo.Count latch = Done r latch [] /\
    0 <= r <= count /\
    (Usage.mutators cs = [] -> r = count).
Proof.
  intros Hc Hcs Heq.
  destruct (latch_inv_new count Hc) as (latch0 & tr0 & Hnew & Hinv0).
  assert (H0 : Congo.remainingCount latch0 = count).
  { rewrite (latch_of_balance_new count Hc) in Hnew.
    injection Hnew as <- _. cbn. destruct Hc. lia. }
  unfold Congo.lifetime in Heq. rewrite Hnew in Heq. cbn [and_then] in Heq.
  destruct (Congo.run cs latch0) as [vs1 latch1 tr1| |] eqn:Hrun;
    try discriminate Heq.
  injection Heq as <- <- <-.
  destruct (run_keeps_inv cs Hcs latch0 tr0 Hinv0) as [_ Hkeep].
  destruct (Hkeep vs1 latch1 tr1 Hrun) as (([Hm [Hlo _]] & _) & Hle & _).
  exists (Congo.remainingCount latch1).
  split; [apply Count_idle; exact Hm|].
  split; [lia|].
  intros Hobs.
  destruct (run_of_observers cs latch0 vs1 latch1 tr1 Hobs Hrun) as [-> _].
  exact H0.
Qed.

Lemma Count_between_zero_and_initial_witness :
  exists r,
    Congo.Count (Spec.at_rest 4 ChOpen) = Done r (Spec.at_rest 4 ChOpen) [] /\
    0 <= r <= 7 /\
    (Usage.mutators [Congo.CallWeightedCountDown 3; Congo.CallCount] = [] -> r = 7).
Proof.
  apply (Count_between_zero_and_initial 7
           [Congo.CallWeightedCountDown 3; Congo.CallCount]
           [Congo.VError Congo.nil; Congo.VUint 4]
           (Spec.at_rest 4 ChOpen) []).
  - uint_range.
  - calls_ok.
  - reflexivity.
Defined.

(** ** Forced completion *)

(** X10. From every state a lifetime reaches, [Complete()] followed by
    [Wait()] and [Count()] returns throughout: [Complete] returns the
    error exactly when the channel was already closed, [Wait] does not
    block, [Count] returns 0, and the channel is closed now, by a [close]
    of this run only if it was open before. *)
Theorem Complete_releases_waiters
    (count : Z) (cs : list Congo.call) (vs : list Congo.value)
    (latch : Congo.CountDownLatch) (tr : list event) :
  is_uint count -> Forall Congo.call_ok cs ->
  Congo.lifetime count cs = Done vs latch tr ->
  Congo.run [Congo.CallComplete; Congo.CallWait; Congo.CallCount] latch =
  Done [Congo.VError (if recv_ready (Congo.countDownCompleteCh latch)
                      then Congo.ErrCountDownLatchCompleted
                      else Congo.nil);
        Congo.VUnit; Congo.VUint 0]
       (Spec.at_rest 0 ChClosed)
       (if recv_ready (Congo.countDownCompleteCh latch) then [] else [EvClose]).
Proof.
  intros Hc Hcs Heq.
  destruct (lifetime_keeps_inv count cs Hc Hcs) as [_ Hinv].
  destruct (Hinv vs latch tr Heq) as ([Hm _] & Hzero & _).
  unfold Congo.completed in Hzero.
  rewrite run_cons. cbn [Congo.exec]. unfold bind at 1.
  rewrite Complete_is_weight_remaining, (doCountDown_under_lock _ latch Hm).
  destruct (Congo.countDownCompleteCh latch) eqn:Hch; cbn [recv_ready].
  - rewrite (proj2 (gtb_false _ _) (Z.le_refl _)). reflexivity.
  - assert (Hz : Congo.remainingCount latch = 0) by (apply Hzero; reflexivity).
    rewrite (latch_at_rest latch Hm), Hz, Hch. reflexivity.
Qed.

Lemma Complete_releases_waiters_witness :
  Congo.run [Congo.CallComplete; Congo.CallWait; Congo.CallCount]
            (Spec.at_rest 700000 ChOpen) =
  Done [Congo.VError Congo.nil; Congo.VUnit; Congo.VUint 0]
       (Spec.at_rest 0 ChClosed) [EvClose].
Proof.
  apply (Complete_releases_waiters 1000000
           [Congo.CallWeightedCountDown 300000]
           [Congo.VError Congo.nil] (Spec.at_rest 700000 ChOpen) []).
  - uint_range.
  - calls_ok.
  - reflexivity.
Defined.

(** ** Package latch on its own *)

Lemma latch_lifetime_as_congo (count : Z) (cs : list Latch.call) :
  Congo.lifetime count (map Equiv.congo_call cs) =
  Equiv.congo_outcome (map Equiv.congo_value) (Latch.lifetime count cs).
Proof.
  unfold Latch.lifetime, Congo.lifetime.
  rewrite <- New_agrees.
  destruct (Latch.New count) as [u latch0 tr0| |]; cbn; try reflexivity.
  rewrite <- run_agrees.
  destruct (Latch.run cs latch0) as [vs latch1 tr1| |]; reflexivity.
Qed.

Lemma latch_calls_ok (cs : list Latch.call) :
  Forall Usage.latch_call_ok cs ->
  Forall Congo.call_ok (map Equiv.congo_call cs).
Proof.
  induction 1 as [|c cs Hc _ IH]; [apply Forall_nil|].
  cbn [map]. apply Forall_cons; [|exact IH].
  destruct c; cbn in *; auto.
Qed.

Lemma latch_lifetime_inv (count : Z) (cs : list Latch.call) :
  is_uint count -> Forall Usage.latch_call_ok cs ->
  Latch.lifetime count cs <> Panicked /\
  forall vs latch tr,
    Latch.lifetime count cs = Done vs latch tr ->
    Spec.latch_inv (Equiv.congo_latch latch) tr.
Proof.
  intros Hc Hcs.
  destruct (lifetime_keeps_inv count (map Equiv.congo_call cs) Hc
              (latch_calls_ok cs Hcs)) as [Hnp Hinv].
  rewrite latch_lifetime_as_congo in Hnp, Hinv.
  destruct (Latch.lifetime count cs) as [vs latch tr| |]; cbn in *.
  - split; [discriminate|]. intros vs' latch' tr' H.
    injection H as <- <- <-. apply (Hinv _ _ _ eq_refl).
  - split; [discriminate | intros; discriminate].
  - exfalso. apply Hnp. reflexivity.
Qed.

(** X11. Package latch keeps the same invariant on its own: along every
    lifetime ([New] with a [uint] count, then calls with [uint] weights)
    nothing panics, the mutex is free between calls, the counter stays a
    [uint], the channel is closed if and only if the counter is 0, and
    the history holds at most one [close]. *)
Theorem latch_package_invariant (count : Z) (cs : list Latch.call) :
  is_uint count -> Forall Usage.latch_call_ok cs ->
  Latch.lifetime count cs <> Panicked /\
  forall vs latch tr,
    Latch.lifetime count cs = Done vs latch tr ->
    Latch.m latch = Unlocked /\
    is_uint (Latch.remainingCount latch) /\
    (Latch.countDownCompleteCh latch = ChClosed <->
     Latch.remainingCount latch = 0) /\
    (fired tr <= 1)%nat.
Proof.
  intros Hc Hcs.
  destruct (latch_lifetime_inv count cs Hc Hcs) as [Hnp Hinv].
  split; [exact Hnp|]. intros vs latch tr Heq.
  destruct (Hinv vs latch tr Heq) as ([Hm Hr] & Hzero & Hfired & Hnot).
  unfold Congo.completed in *. cbn in Hm, Hr, Hzero, Hfired, Hnot.
  repeat split; try assumption; try apply Hr; try apply Hzero.
  destruct (Latch.countDownCompleteCh latch).
  - rewrite (proj1 Hnot) by discriminate. cbn. lia.
  - rewrite (proj1 Hfired) by reflexivity. cbn. lia.
Qed.

Lemma latch_package_invariant_witness :
  Latch.m (Latch.Build_CountDownLatch Unlocked 0 ChClosed) = Unlocked /\
  is_uint (Latch.remainingCount (Latch.Build_CountDownLatch Unlocked 0 ChClosed)) /\
  (Latch.countDownCompleteCh (Latch.Build_CountDownLatch Unlocked 0 ChClosed)
     = ChClosed <->
   Latch.remainingCount (Latch.Build_CountDownLatch Unlocked 0 ChClosed) = 0) /\
  (fired [EvClose] <= 1)%nat.
Proof.
  apply (proj2 (latch_package_invariant 3
           [Latch.CallWeightedCountDown 2; Latch.CallCountDown; Latch.CallWait]
           ltac:(uint_range)
           ltac:(repeat (apply Forall_cons; [first [exact I | uint_range]|]);
                 apply Forall_nil))
         [Latch.VError Latch.nil; Latch.VError Latch.nil; Latch.VUnit]
         (Latch.Build_CountDownLatch Unlocked 0 ChClosed) [EvClose]).
  reflexivity.
Defined.

(** X12. In package latch, at every point of a lifetime, [CountDown()]
    and [WeightedCountDown(w)] for every [w] return, and return
    [ErrLatchCompleted] exactly when [Count()] returns 0 at that point;
    on the error the latch is left as it was. *)
Theorem latch_error_iff_Count_zero
    (count : Z) (cs : list Latch.call) (vs : list Latch.value)
    (latch : Latch.CountDownLatch) (tr : list event) (w : Z) :
  is_uint count -> Forall Usage.latch_call_ok cs ->
  Latch.lifetime count cs = Done vs latch tr ->
  exists n e latch' tr',
    Latch.Count latch = Done n latch [] /\
    Latch.WeightedCountDown w latch = Done e latch' tr' /\
    (e = Latch.ErrLatchCompleted <-> n = 0) /\
    (e = Latch.ErrLatchCompleted -> latch' = latch /\ tr' = []) /\
    exists e1 latch1 tr1,
      Latch.CountDown latch = Done e1 latch1 tr1 /\
      (e1 = Latch.ErrLatchCompleted <-> n = 0).
Proof.
  intros Hc Hcs Heq.
  destruct (latch_lifetime_inv count cs Hc Hcs) as [_ Hinv].
  destruct (Hinv vs latch tr Heq) as ([Hm _] & Hzero & _).
  unfold Congo.completed in Hzero.
  destruct latch as [mu r ch]; cbn in Hm, Hzero; subst mu.
  exists r. unfold Latch.CountDown. latch_unfold.
  destruct ch; cbn.
  - assert (Hnz : r <> 0) by (intros H0; apply Hzero in H0; discriminate H0).
    destruct (r >? w); destruct (r >? 1); cbn;
      eexists _, _, _; (split; [reflexivity|]); (split; [reflexivity|]);
      (split; [split; [discriminate | contradiction]|]);
      (split; [discriminate|]);
      eexists _, _, _; (split; [reflexivity|]);
      (split; [discriminate | contradiction]).
  - assert (Hz : r = 0) by (apply Hzero; reflexivity).
    eexists _, _, _; (split; [reflexivity|]); (split; [reflexivity|]).
    split; [split; auto|]. split; [intros _; split; reflexivity|].
    eexists _, _, _; split; [reflexivity|]. split; auto.
Qed.

Lemma latch_error_iff_Count_zero_witness :
  exists n e latch' tr',
    Latch.Count (Latch.Build_CountDownLatch Unlocked 1 ChOpen) =
      Done n (Latch.Build_CountDownLatch Unlocked 1 ChOpen) [] /\
    Latch.WeightedCountDown 0 (Latch.Build_CountDownLatch Unlocked 1 ChOpen) =
      Done e latch' tr' /\
    (e = Latch.ErrLatchCompleted <-> n = 0) /\
    (e = Latch.ErrLatchCompleted ->
     latch' = Latch.Build_CountDownLatch Unlocked 1 ChOpen /\ tr' = []) /\
    exists e1 latch1 tr1,
      Latch.CountDown (Latch.Build_CountDownLatch Unlocked 1 ChOpen) =
        Done e1 latch1 tr1 /\
      (e1 = Latch.ErrLatchCompleted <-> n = 0).
Proof.
  apply (latch_error_iff_Count_zero 3 [Latch.CallWeightedCountDown 2]
           [Latch.VError Latch.nil]
           (Latch.Build_CountDownLatch Unlocked 1 ChOpen) [] 0).
  - uint_range.
  - apply Forall_cons; [uint_range | apply Forall_nil].
  - reflexivity.
Defined.

(** ** The two waits *)

(** X13. Until its timer fires, [WaitTimeout(d)] is [Wait()] that reports
    [true]: on every latch it returns, with the latch untouched, exactly
    when [Wait()] would, and blocks exactly when [Wait()] would. *)
Theorem WaitTimeout_before_deadline_is_Wait
    (latch : Congo.CountDownLatch) (d elapsed : Z) (pick : select_case) :
  elapsed < d ->
  Congo.WaitTimeout d elapsed pick latch =
  and_then (Congo.Wait latch) (fun _ => ret true).
Proof.
  intros Hlt. unfold Congo.WaitTimeout, Congo.Wait, timer_fired.
  rewrite (proj2 (Z.leb_gt d elapsed) Hlt).
  destruct (Congo.countDownCompleteCh latch); reflexivity.
Qed.

Lemma WaitTimeout_before_deadline_is_Wait_witness :
  Congo.WaitTimeout 100000000 0 SecondCase (Spec.at_rest 1 ChOpen) =
  and_then (Congo.Wait (Spec.at_rest 1 ChOpen)) (fun _ => ret true).
Proof.
  apply (WaitTimeout_before_deadline_is_Wait (Spec.at_rest 1 ChOpen)). lia.
Defined.
